(** * Stockpile: the inventory policy engine and the local catalog store

    A shallow embedding of the computations of the Stockpile application:
    - [src/App.tsx]: the [Product] and [User] records;
    - [src/lib/localStorage.ts]: [productService] and [authService] over
      the browser's key-value store;
    - [src/components/Restock.tsx]: restock suggestions, the editable
      restock quantity, the restock commit and the urgency label;
    - [src/components/Dashboard.tsx], [src/components/Reports.tsx]: counts,
      valuation, category breakdown and stock-level distribution;
    - the inventory view and [src/components/AddProduct.tsx]: the filters,
      the status of a card, and the deletion and creation of products.

    Conventions.  The stock fields of a product are integer-valued JavaScript
    numbers and are modelled in [Z]; the prices are arbitrary JavaScript
    numbers and are modelled as IEEE-754 binary64 values ([float]), so that a
    valuation or a percentage is computed here with the very roundings the
    program performs; how far such a result can be from the exact one is
    derived from the rounding of [SpecFloat]'s operations.
    Timestamps are the ISO strings produced by [new Date().toISOString()];
    the clock reading is an argument ([now]) of the operations that take one.
    An asynchronous function is modelled by the value its promise resolves
    to. *)

From Stdlib Require Import ZArith QArith Qabs Qpower List Bool Lia Lqa Sorted Permutation.
From Stdlib Require Import Floats.PrimFloat Floats.FloatOps Floats.SpecFloat Floats.FloatAxioms.
From Stdlib Require Import DecimalString DecimalZ DecimalPos.
From stdpp Require Import list strings.
Import ListNotations.

Local Open Scope Z_scope.

(** ** Data model ([src/App.tsx]) *)

Record Product := mkProduct {
  id : string;
  name : string;
  description : string;
  category : string;
  brand : string;
  sku : string;
  barcode : option string;
  current_stock : Z;
  min_stock_level : Z;
  max_stock_level : Z;
  cost_price : float;
  selling_price : float;
  supplier : string;
  location : string;
  created_at : string;
  updated_at : string
}.

(** [Partial<Product>]: every key may be absent. *)
Record PartialProduct := mkPartial {
  p_id : option string;
  p_name : option string;
  p_description : option string;
  p_category : option string;
  p_brand : option string;
  p_sku : option string;
  p_barcode : option (option string);
  p_current_stock : option Z;
  p_min_stock_level : option Z;
  p_max_stock_level : option Z;
  p_cost_price : option float;
  p_selling_price : option float;
  p_supplier : option string;
  p_location : option string;
  p_created_at : option string;
  p_updated_at : option string
}.

(** The patch with no key at all, [{}]. *)
Definition emptyPatch : PartialProduct :=
  mkPartial None None None None None None None None None None None None
            None None None None.

(** A product given by its stock fields and cost price only; the other
    fields are those of a blank form. *)
Definition stocked (i cat : string) (stock lo hi : Z) (cost : float) : Product :=
  mkProduct i "" "" cat "" "" None stock lo hi cost 0%float "" "" "" "".

(** ** JavaScript numbers *)

(** The binary64 value of an integer (what [JSON.parse] or a numeric literal
    yields for it): the nearest double, ties to even. *)
Definition Z2number (z : Z) : float :=
  SF2Prim (binary_normalize prec emax z 0 false).

(** A number that is neither [NaN] nor an infinity. *)
Definition finite (x : float) : bool :=
  match Prim2SF x with
  | S754_zero _ | S754_finite _ _ _ => true
  | _ => false
  end.

(** The rational a finite number denotes (0 for the others). *)
Definition Qvalue (x : float) : Q :=
  match Prim2SF x with
  | S754_finite s m e =>
      let q := (inject_Z (Z.pos m) * Qpower 2 e)%Q in
      if s then Qopp q else q
  | _ => 0%Q
  end.

(** *** Rounding to nearest

    The notions the error analysis of the binary64 operations is stated
    with: the values of the numbers of [SpecFloat], the position of a real
    value with respect to a truncated mantissa, and the two constants of
    the standard model of rounding. *)

(** The true value [N / D] lies in the unit interval above [m], where the
    round and sticky bits say. *)
Definition Located (N D : Z) (mrs : shr_record) : Prop :=
  let m := shr_m mrs in
  m * D <= N < (m + 1) * D /\
  match shr_r mrs, shr_s mrs with
  | false, false => N = m * D
  | false, true => m * D < N /\ 2 * N < (2 * m + 1) * D
  | true, false => 2 * N = (2 * m + 1) * D
  | true, true => (2 * m + 1) * D < 2 * N
  end.

(** What [binary_round_aux] returns once the mantissa is rounded to [m1]
    at exponent [e1]. *)
Definition packed (sx : bool) (m1 e1 : Z) : spec_float :=
  if m1 =? 0 then S754_zero sx
  else if m1 =? 2 ^ 53
       then if e1 + 1 <=? 971
            then S754_finite sx (Z.to_pos (2 ^ 52)) (e1 + 1)
            else S754_infinity sx
       else if e1 <=? 971
            then S754_finite sx (Z.to_pos m1) e1
            else S754_infinity sx.

(** The rational a number of [SpecFloat] denotes, as [Qvalue]. *)
Definition SFvalue (x : spec_float) : Q :=
  match x with
  | S754_finite s m e =>
      let q := (inject_Z (Z.pos m) * Qpower 2 e)%Q in
      if s then Qopp q else q
  | _ => 0%Q
  end.

(** Neither [NaN] nor an infinity, as [finite]. *)
Definition SFfinite (x : spec_float) : bool :=
  match x with
  | S754_zero _ | S754_finite _ _ _ => true
  | _ => false
  end.

(** The unit roundoff of binary64 and half the smallest positive number. *)
Definition unitRoundoff : Q := Qpower 2 (-53).
Definition tiny : Q := Qpower 2 (-1075).

(** Zero (of either sign) or positive. *)
Definition SFnonneg (x : spec_float) : bool :=
  match x with
  | S754_zero _ | S754_finite false _ _ => true
  | _ => false
  end.

(** A number that is zero or positive, hence finite. *)
Definition nonNegative (x : float) : bool := SFnonneg (Prim2SF x).

(** *** Valuation *)

(** [p.current_stock * p.cost_price], a binary64 product. *)
Definition lineValue (p : Product) : float :=
  (Z2number (current_stock p) * cost_price p)%float.

(** [products.reduce((sum, p) => sum + (p.current_stock * p.cost_price), 0)]
    ([Dashboard.tsx] line 50, [Reports.tsx] line 35). *)
Definition totalValue (products : list Product) : float :=
  fold_left (fun sum p => (sum + lineValue p)%float) products 0%float.

(** The same sum in exact arithmetic, for comparison. *)
Definition exactLineValue (p : Product) : Q :=
  (inject_Z (current_stock p) * Qvalue (cost_price p))%Q.

Definition exactTotalValue (products : list Product) : Q :=
  fold_right (fun p acc => (exactLineValue p + acc)%Q) 0%Q products.

(** The data the valuation is specified for: a stock that is a
    non-negative integer below [2 ^ 53], hence exactly a JavaScript number,
    and a cost price that is a non-negative number (not [NaN], not an
    infinity). *)
Definition priced (p : Product) : Prop :=
  0 <= current_stock p < 2 ^ 53 /\ nonNegative (cost_price p) = true.

(** The drift one product can add to a total of at most 10^9: three
    roundings' worth. *)
Definition driftPerProduct : Q := (3 * 1000000000 * unitRoundoff)%Q.

(** The catalog of the valuation scenario: stocks 25, 5 and 0 at cost
    prices 12.50, 8.00 and 3.50. *)
Definition scenarioCatalog : list Product :=
  [ stocked "1" "Tools" 25 10 50 12.5%float;
    stocked "2" "Tools" 5 15 40 8%float;
    stocked "3" "Electrical" 0 20 100 3.5%float ].

(** Three products at decimal prices that are no binary fractions: 3 at
    24.99, 7 at 15.99 and 2 at 7.99, worth 202.88 in decimal arithmetic. *)
#[warnings="-inexact-float"]
Definition decimalCatalog : list Product :=
  [ stocked "1" "Tools" 3 1 10 24.99%float;
    stocked "2" "Tools" 7 1 10 15.99%float;
    stocked "3" "Paint" 2 1 10 7.99%float ].

(** Two products: a hundred million units at a cost of a hundred million
    each, and one unit at a cost of 1. *)
Definition largeCatalog : list Product :=
  [ stocked "1" "Bulk" 100000000 0 0 100000000%float;
    stocked "2" "Bulk" 1 0 0 1%float ].

(** ** Stock classification

    The three tests the components count and filter with ([Dashboard.tsx]
    lines 48-49 and 61, [Reports.tsx] lines 36-39 and 58), and the status the
    inventory view shows. *)

Definition isOutOfStock (p : Product) : bool :=
  current_stock p =? 0.

Definition isLowStock (p : Product) : bool :=
  (current_stock p <=? min_stock_level p) && (current_stock p >? 0).

Definition isGoodStock (p : Product) : bool :=
  current_stock p >? min_stock_level p.

(** The [status] field of what [getStockStatus] returns: ['out'], ['low']
    and ['good'], labelled "Out of Stock", "Low Stock" and "In Stock". *)
Inductive StockStatus := Out | Low | Good.

(** [getStockStatus] of the inventory view (found in
    [src/components/LoginForm.tsx], lines 183-191). *)
Definition getStockStatus (p : Product) : StockStatus :=
  if current_stock p =? 0 then Out
  else if current_stock p <=? min_stock_level p then Low
  else Good.

(** The data model's range for the stock fields tested above. *)
Definition stockFieldsNonNegative (p : Product) : Prop :=
  0 <= current_stock p /\ 0 <= min_stock_level p.

(** ** Restocking ([src/components/Restock.tsx]) *)

Module Restock.

Record RestockItem := mkItem {
  product : Product;
  suggestedQuantity : Z;
  actualQuantity : Z
}.

(** The local [suggestedQuantity] of the callback (lines 38-41). *)
Definition rawQuantity (p : Product) : Z :=
  Z.max (max_stock_level p - current_stock p)
        (min_stock_level p - current_stock p).

(** The callback of [(products || []).map(...)] (lines 37-48). *)
Definition restockItem (p : Product) : RestockItem :=
  let suggested := rawQuantity p in
  {| product := p;
     suggestedQuantity := Z.max suggested 10;
     actualQuantity := if suggested >? 0 then suggested else 10 |}.

(** [fetchRestockData], from the rows the query returned. *)
Definition fetchRestockData (rows : list Product) : list RestockItem :=
  map restockItem rows.

(** [updateQuantity] (lines 58-66): the new list of items. *)
Definition updateQuantity (productId : string) (quantity : Z)
    (items : list RestockItem) : list RestockItem :=
  map (fun item =>
         if String.eqb (id (product item)) productId
         then {| product := product item;
                 suggestedQuantity := suggestedQuantity item;
                 actualQuantity := Z.max 0 quantity |}
         else item)
      items.

(** A run of [updateQuantity] calls, as issued by the minus button
    ([actualQuantity - 1]), the number field ([parseInt(value) || 0]) and
    the plus button ([actualQuantity + 1]) of lines 195-210; each call is
    given by its two arguments. *)
Definition applyUpdates (calls : list (string * Z))
    (items : list RestockItem) : list RestockItem :=
  fold_left (fun items call => updateQuantity (fst call) (snd call) items)
            calls items.

(** What [handleRestock] (lines 68-95) asks of the remote table: the row
    of [productId] gets this [current_stock] (and a fresh [updated_at]). *)
Record StockUpdate := mkUpdate { u_id : string; u_current_stock : Z }.

(** [handleRestock]: the update sent, if any, and the items afterwards.
    [accepted] tells whether the remote table reported no error. *)
Definition handleRestock (productId : string) (accepted : bool)
    (items : list RestockItem) : option StockUpdate * list RestockItem :=
  match List.find (fun i => String.eqb (id (product i)) productId) items with
  | None => (None, items)
  | Some item =>
      let newStock := current_stock (product item) + actualQuantity item in
      (Some {| u_id := productId; u_current_stock := newStock |},
       if accepted
       then List.filter (fun i => negb (String.eqb (id (product i)) productId)) items
       else items)
  end.

Inductive Urgency := critical | high | medium.

(** How urgent one level is compared with another: [critical] above
    [high] above [medium]. *)
Definition urgencyRank (u : Urgency) : Z :=
  match u with critical => 2 | high => 1 | medium => 0 end.

(** The [level] of [getUrgencyLevel] (lines 97-105); the comparison with
    half the minimum level is made on the exact values. *)
Definition getUrgencyLevel (p : Product) : Urgency :=
  if current_stock p =? 0 then critical
  else if Qle_bool (inject_Z (current_stock p))
                   (inject_Z (min_stock_level p) * (5 # 10))
  then high
  else medium.

End Restock.

(** ** Dashboard ([src/components/Dashboard.tsx]) *)

Module Dashboard.

Record DashboardStats := mkStats {
  ds_totalProducts : nat;
  ds_lowStockItems : nat;
  ds_totalValue : float;
  ds_outOfStockItems : nat
}.

(** The statistics of [fetchDashboardData] (lines 47-57). *)
Definition stats (products : list Product) : DashboardStats :=
  {| ds_totalProducts := length products;
     ds_lowStockItems := length (List.filter isLowStock products);
     ds_totalValue := totalValue products;
     ds_outOfStockItems := length (List.filter isOutOfStock products) |}.

(** [products.filter(...).slice(0, 5)] (lines 60-62). *)
Definition lowStockProducts (products : list Product) : list Product :=
  firstn 5 (List.filter isLowStock products).

(** Whether the "Low Stock Alert" panel is rendered (line 138). *)
Definition alertShown (products : list Product) : bool :=
  (0 <? length (lowStockProducts products))%nat.

End Dashboard.

(** ** Reports ([src/components/Reports.tsx]) *)

Module Reports.

(** The values of [categoryMap]. *)
Record CategoryData := mkData { d_count : Z; d_value : float }.

(** A JavaScript [Map] with string keys: the entries in insertion order,
    each key at most once.  [set] on a present key replaces the value in
    place, [set] on a new key appends an entry. *)
Definition JSMap := list (string * CategoryData).

Fixpoint map_get (k : string) (m : JSMap) : option CategoryData :=
  match m with
  | [] => None
  | (k', v) :: m' => if String.eqb k' k then Some v else map_get k m'
  end.

Fixpoint map_set (k : string) (v : CategoryData) (m : JSMap) : JSMap :=
  match m with
  | [] => [(k, v)]
  | (k', v') :: m' =>
      if String.eqb k' k then (k', v) :: m' else (k', v') :: map_set k v m'
  end.

(** The callback of [products.forEach] (lines 43-49). *)
Definition addProduct (m : JSMap) (p : Product) : JSMap :=
  let existing :=
    match map_get (category p) m with
    | Some data => data
    | None => {| d_count := 0; d_value := 0%float |}
    end in
  map_set (category p)
          {| d_count := d_count existing + 1;
             d_value := (d_value existing + lineValue p)%float |}
          m.

Definition categoryMap (products : list Product) : JSMap :=
  fold_left addProduct products [].

Record CategoryRow := mkRow {
  r_category : string;
  r_count : Z;
  r_value : float
}.

(** [Array.from(categoryMap.entries()).map(...)] (lines 51-55). *)
Definition categoryRows (products : list Product) : list CategoryRow :=
  map (fun entry =>
         {| r_category := fst entry;
            r_count := d_count (snd entry);
            r_value := d_value (snd entry) |})
      (categoryMap products).

(** [Array.prototype.sort] with a comparator.  ECMAScript requires the sort
    to be stable, which fixes its result for a comparator that is a
    consistent ordering; it is computed here by insertion from the right:
    an element goes in front of the first element it must not follow. *)
Fixpoint sortInsert {A} (cmp : A -> A -> Z) (x : A) (l : list A) : list A :=
  match l with
  | [] => [x]
  | y :: l' => if cmp x y <=? 0 then x :: l else y :: sortInsert cmp x l'
  end.

Definition arraySort {A} (cmp : A -> A -> Z) (l : list A) : list A :=
  fold_right (sortInsert cmp) [] l.

(** The comparator [(a, b) => b.count - a.count] (line 70). *)
Definition byCountDesc (a b : CategoryRow) : Z := r_count b - r_count a.

Definition categoryBreakdown (products : list Product) : list CategoryRow :=
  arraySort byCountDesc (categoryRows products).

(** The entries of [stockLevels]; a percentage is a JavaScript number. *)
Record StockLevel := mkLevel {
  level : string;
  count : nat;
  percentage : float
}.

(** [(count / totalProducts) * 100] (lines 60-62): a binary64 division of
    two array lengths, then a binary64 multiplication. *)
Definition percent (n total : nat) : float :=
  (Z2number (Z.of_nat n) / Z2number (Z.of_nat total) * 100)%float.

Definition lowStockCount (products : list Product) : nat :=
  length (List.filter isLowStock products).

Definition outOfStockCount (products : list Product) : nat :=
  length (List.filter isOutOfStock products).

Definition goodStock (products : list Product) : nat :=
  length (List.filter isGoodStock products).

(** Lines 58-63. *)
Definition stockLevels (products : list Product) : list StockLevel :=
  let totalProducts := length products in
  if (0 <? totalProducts)%nat then
    [ {| level := "Good Stock"; count := goodStock products;
         percentage := percent (goodStock products) totalProducts |};
      {| level := "Low Stock"; count := lowStockCount products;
         percentage := percent (lowStockCount products) totalProducts |};
      {| level := "Out of Stock"; count := outOfStockCount products;
         percentage := percent (outOfStockCount products) totalProducts |} ]
  else [].

(** What the three buckets are specified to report for an empty catalog:
    each bucket present, with count 0 and percentage 0. *)
Definition threeZeroBuckets (levels : list StockLevel) : Prop :=
  exists good low out,
    levels = [good; low; out] /\
    count good = 0%nat /\ count low = 0%nat /\ count out = 0%nat /\
    percentage good = 0%float /\ percentage low = 0%float /\
    percentage out = 0%float.

(** The categories of a snapshot in the order in which they are first met. *)
Definition firstSeen (categories : list string) : list string :=
  fold_left (fun seen c => if existsb (String.eqb c) seen then seen else seen ++ [c])
            categories [].

(** The number of products whose category is the string [c]. *)
Definition countIn (c : string) (products : list Product) : Z :=
  Z.of_nat (length (List.filter (fun p => String.eqb (category p) c) products)).

Definition sumCounts (rows : list CategoryRow) : Z :=
  fold_right (fun row total => r_count row + total) 0 rows.

(** What the map holds after [products]: distinct keys, under each key the
    number of products of that category, and no product outside the keys. *)
Definition grouped (m : JSMap) (products : list Product) : Prop :=
  NoDup (map fst m) /\
  Forall (fun e => d_count (snd e) = countIn (fst e) products /\
                   0 < d_count (snd e)) m /\
  (forall c, ~ In c (map fst m) -> countIn c products = 0).

(** The total of the counts the map holds. *)
Definition entriesTotal (m : JSMap) : Z :=
  fold_right (fun e total => d_count (snd e) + total) 0 m.

(** Descending order of the counts. *)
Definition countGe (a b : CategoryRow) : Prop := r_count a >= r_count b.

Record ReportData := mkReport {
  rd_totalProducts : nat;
  rd_totalValue : float;
  rd_lowStockCount : nat;
  rd_outOfStockCount : nat;
  rd_categoryBreakdown : list CategoryRow;
  rd_stockLevels : list StockLevel
}.

(** The report [fetchReportData] stores (lines 65-72). *)
Definition fetchReportData (products : list Product) : ReportData :=
  {| rd_totalProducts := length products;
     rd_totalValue := totalValue products;
     rd_lowStockCount := lowStockCount products;
     rd_outOfStockCount := outOfStockCount products;
     rd_categoryBreakdown := categoryBreakdown products;
     rd_stockLevels := stockLevels products |}.

(** The share of the products shown beside a category of the overview
    (lines 230-232), before it is printed with one decimal; kept as the
    exact quotient. *)
Definition categoryShare (report : ReportData) (row : CategoryRow) : Q :=
  if (0 <? rd_totalProducts report)%nat
  then (inject_Z (r_count row) / inject_Z (Z.of_nat (rd_totalProducts report)) * 100)%Q
  else 0%Q.

End Reports.

(** ** The catalog store ([src/lib/localStorage.ts]) *)

Module ProductService.

(** The item of [localStorage] under [STORAGE_KEYS.PRODUCTS]: absent, or
    the JSON text of an array of products, kept as the array it parses
    to. *)
Record Storage := mkStorage { PRODUCTS : option (list Product) }.

(** [getAll] (lines 163-166). *)
Definition getAll (st : Storage) : list Product :=
  match PRODUCTS st with
  | Some products => products
  | None => []
  end.

Definition setProducts (products : list Product) (st : Storage) : Storage :=
  {| PRODUCTS := Some products |}.

(** The one-character string holding the inch mark (character 34) that
    ends the name of the fourth default product. *)
Definition inchMark : string := String (Ascii.ascii_of_nat 34) EmptyString.

(** The catalog [initializeData] installs when the store holds none (lines
    37-128); [now] is the clock reading at that moment. *)
#[warnings="-inexact-float"]
Definition defaultProducts (now : string) : list Product :=
  [ mkProduct "1" "Hammer - Claw 16oz" "Standard claw hammer with rubber grip"
      "Tools" "Stanley" "TOO-001" (Some "123456789") 25 10 50
      12.50%float 24.99%float "Stanley Tools Inc" "A1-B2" now now;
    mkProduct "2" "Screwdriver Set" "6-piece precision screwdriver set"
      "Tools" "Craftsman" "TOO-002" (Some "234567890") 5 15 40
      8.00%float 15.99%float "Craftsman Supply" "A1-B3" now now;
    mkProduct "3" "LED Bulb 60W" "Energy efficient LED bulb, warm white"
      "Electrical" "Philips" "ELE-001" (Some "345678901") 0 20 100
      3.50%float 7.99%float "Philips Lighting" "C2-D1" now now;
    mkProduct "4" ("PVC Pipe 2" +:+ inchMark) "2 inch PVC pipe, 10ft length"
      "Plumbing" "Charlotte" "PLU-001" (Some "456789012") 8 10 30
      15.00%float 28.99%float "Charlotte Pipe Co" "E3-F2" now now;
    mkProduct "5" "Paint Brush Set" "Professional paint brush set, 5 pieces"
      "Paint & Supplies" "Purdy" "PAI-001" (Some "567890123") 35 20 60
      18.00%float 34.99%float "Purdy Corp" "D2-E1" now now ].

(** [initializeData] on the products key (lines 14, 36 and 129). *)
Definition initializeData (now : string) (st : Storage) : Storage :=
  match PRODUCTS st with
  | Some _ => st
  | None => setProducts (defaultProducts now) st
  end.

(** The callbacks [p => p.id === id] and [p => p.id !== id]. *)
Definition sameId (i : string) (p : Product) : bool := String.eqb (id p) i.

Definition otherId (i : string) (p : Product) : bool :=
  negb (String.eqb (id p) i).

(** [Array.prototype.findIndex]; [None] stands for [-1]. *)
Fixpoint findIndex {A} (f : A -> bool) (l : list A) : option nat :=
  match l with
  | [] => None
  | x :: l' => if f x then Some 0%nat else option_map S (findIndex f l')
  end.

Definition orElse {A} (o : option A) (d : A) : A :=
  match o with Some x => x | None => d end.

(** [{ ...old, ...updates, updated_at: now }] (lines 192-196). *)
Definition merge (old : Product) (updates : PartialProduct) (now : string)
    : Product :=
  {| id := orElse (p_id updates) (id old);
     name := orElse (p_name updates) (name old);
     description := orElse (p_description updates) (description old);
     category := orElse (p_category updates) (category old);
     brand := orElse (p_brand updates) (brand old);
     sku := orElse (p_sku updates) (sku old);
     barcode := orElse (p_barcode updates) (barcode old);
     current_stock := orElse (p_current_stock updates) (current_stock old);
     min_stock_level := orElse (p_min_stock_level updates) (min_stock_level old);
     max_stock_level := orElse (p_max_stock_level updates) (max_stock_level old);
     cost_price := orElse (p_cost_price updates) (cost_price old);
     selling_price := orElse (p_selling_price updates) (selling_price old);
     supplier := orElse (p_supplier updates) (supplier old);
     location := orElse (p_location updates) (location old);
     created_at := orElse (p_created_at updates) (created_at old);
     updated_at := now |}.

(** [update] (lines 187-202): the value returned ([None] for [null]) and
    the storage afterwards. *)
Definition update (now : string) (i : string) (updates : PartialProduct)
    (st : Storage) : option Product * Storage :=
  let products := getAll st in
  match findIndex (sameId i) products with
  | Some index =>
      match products !! index with
      | Some old =>
          let products' := <[index := merge old updates now]> products in
          (products' !! index, setProducts products' st)
      | None => (None, st)
      end
  | None => (None, st)
  end.

(** [delete] (lines 204-214): the boolean returned and the storage
    afterwards. *)
Definition delete (i : string) (st : Storage) : bool * Storage :=
  let products := getAll st in
  let filtered := List.filter (otherId i) products in
  if negb (length filtered =? length products)%nat
  then (true, setProducts filtered st)
  else (false, st).

(** [getById] (lines 168-171); [None] stands for [null]. *)
Definition getById (i : string) (st : Storage) : option Product :=
  List.find (sameId i) (getAll st).

(** [Omit<Product, 'id' | 'created_at' | 'updated_at'>]. *)
Record NewProduct := mkNew {
  n_name : string;
  n_description : string;
  n_category : string;
  n_brand : string;
  n_sku : string;
  n_barcode : option string;
  n_current_stock : Z;
  n_min_stock_level : Z;
  n_max_stock_level : Z;
  n_cost_price : float;
  n_selling_price : float;
  n_supplier : string;
  n_location : string
}.

(** [Date.now().toString()]: the decimal digits of the clock reading in
    milliseconds. *)
Definition clockId (ms : Z) : string := NilZero.string_of_int (Z.to_int ms).

(** The record [create] builds (lines 175-180) from the clock reading [ms]
    and the two ISO strings of [new Date()]. *)
Definition newProduct (ms : Z) (created updated : string) (product : NewProduct)
    : Product :=
  {| id := clockId ms;
     name := n_name product;
     description := n_description product;
     category := n_category product;
     brand := n_brand product;
     sku := n_sku product;
     barcode := n_barcode product;
     current_stock := n_current_stock product;
     min_stock_level := n_min_stock_level product;
     max_stock_level := n_max_stock_level product;
     cost_price := n_cost_price product;
     selling_price := n_selling_price product;
     supplier := n_supplier product;
     location := n_location product;
     created_at := created;
     updated_at := updated |}.

(** [create] (lines 173-185): the product returned and the storage
    afterwards. *)
Definition create (ms : Z) (created updated : string) (product : NewProduct)
    (st : Storage) : Product * Storage :=
  let products := getAll st in
  let new := newProduct ms created updated product in
  (new, setProducts (products ++ [new]) st).

(** A call of one of the three mutating functions, with its arguments
    and clock readings. *)
Inductive Operation :=
| Create (ms : Z) (created updated : string) (product : NewProduct)
| Update (now : string) (i : string) (updates : PartialProduct)
| Delete (i : string).

(** The storage after a call, and after a run of calls. *)
Definition perform (op : Operation) (st : Storage) : Storage :=
  match op with
  | Create ms created updated product =>
      snd (create ms created updated product st)
  | Update now i updates => snd (update now i updates st)
  | Delete i => snd (delete i st)
  end.

Definition performAll (ops : list Operation) (st : Storage) : Storage :=
  fold_left (fun st op => perform op st) ops st.

End ProductService.

(** ** Sign-in ([src/lib/localStorage.ts], [authService]) *)

Module AuthService.

Inductive Role := admin | associate.

(** [User] of [src/App.tsx]. *)
Record User := mkUser {
  user_id : string;
  user_email : string;
  user_role : Role
}.

(** An entry of the stored user list: a user with the password. *)
Record StoredUser := mkStored {
  su_id : string;
  su_email : string;
  su_password : string;
  su_role : Role
}.

(** The two items [authService] reads and writes: the user list under
    [STORAGE_KEYS.USERS] and the signed-in user under
    [STORAGE_KEYS.CURRENT_USER], each absent or present. *)
Record Storage := mkStorage {
  USERS : option (list StoredUser);
  CURRENT_USER : option User
}.

(** Lines 18-31. *)
Definition defaultUsers : list StoredUser :=
  [ mkStored "1" "admin@stockpile.com" "admin123" admin;
    mkStored "2" "user@stockpile.com" "user123" associate ].

(** [initializeData] on the users key (lines 13 and 17-33). *)
Definition initializeData (st : Storage) : Storage :=
  match USERS st with
  | Some _ => st
  | None => {| USERS := Some defaultUsers; CURRENT_USER := CURRENT_USER st |}
  end.

(** [JSON.parse(localStorage.getItem(STORAGE_KEYS.USERS) || '[]')]. *)
Definition storedUsers (st : Storage) : list StoredUser :=
  match USERS st with
  | Some users => users
  | None => []
  end.

(** The callback [u => u.email === email && u.password === password]. *)
Definition credentialsMatch (email password : string) (u : StoredUser) : bool :=
  String.eqb (su_email u) email && String.eqb (su_password u) password.

(** What [signIn] resolves to: [{ user, error }], [None] for [null]. *)
Record SignInResult := mkResult {
  user : option User;
  error : option string
}.

(** [signIn] (lines 138-149): the result and the storage afterwards. *)
Definition signIn (email password : string) (st : Storage)
    : SignInResult * Storage :=
  match List.find (credentialsMatch email password) (storedUsers st) with
  | Some u =>
      let userData := {| user_id := su_id u; user_email := su_email u;
                         user_role := su_role u |} in
      ({| user := Some userData; error := None |},
       {| USERS := USERS st; CURRENT_USER := Some userData |})
  | None =>
      ({| user := None; error := Some "Invalid email or password" |}, st)
  end.

(** [signOut] (lines 151-153). *)
Definition signOut (st : Storage) : Storage :=
  {| USERS := USERS st; CURRENT_USER := None |}.

(** [getCurrentUser] (lines 155-158). *)
Definition getCurrentUser (st : Storage) : option User := CURRENT_USER st.

(** A call of [signIn] or [signOut]; the storage after a run of calls. *)
Inductive Call :=
| SignIn (email password : string)
| SignOut.

Definition call (c : Call) (st : Storage) : Storage :=
  match c with
  | SignIn email password => snd (signIn email password st)
  | SignOut => signOut st
  end.

Definition callAll (calls : list Call) (st : Storage) : Storage :=
  fold_left (fun st c => call c st) calls st.

End AuthService.

(** ** The inventory view ([ViewInventory], in
    [src/components/LoginForm.tsx] from line 112) *)

Module ViewInventory.

Inductive StockFilter := all | low | out.

(** A string that is not empty is truthy. *)
Definition truthy (s : string) : bool := negb (String.eqb s "").

Section Search.

(** [String.prototype.toLowerCase] and [String.prototype.includes] are
    those of the JavaScript engine: [includes s t] stands for
    [s.includes(t)]. *)
Variable toLowerCase : string -> string.
Variable includes : string -> string -> bool.

(** The callback of the search filter (lines 155-159). *)
Definition matchesSearch (searchTerm : string) (product : Product) : bool :=
  includes (toLowerCase (name product)) (toLowerCase searchTerm)
  || includes (toLowerCase (sku product)) (toLowerCase searchTerm)
  || includes (toLowerCase (brand product)) (toLowerCase searchTerm).

(** [applyFilters] (lines 150-181): the list it stores in
    [filteredProducts]. *)
Definition applyFilters (products : list Product)
    (searchTerm selectedCategory : string) (stockFilter : StockFilter)
    : list Product :=
  let filtered := products in
  let filtered :=
    if truthy searchTerm
    then List.filter (matchesSearch searchTerm) filtered
    else filtered in
  let filtered :=
    if truthy selectedCategory
    then List.filter (fun product => String.eqb (category product) selectedCategory)
                     filtered
    else filtered in
  match stockFilter with
  | low =>
      List.filter (fun product =>
                     (current_stock product <=? min_stock_level product)
                     && (current_stock product >? 0)) filtered
  | out => List.filter (fun product => current_stock product =? 0) filtered
  | all => filtered
  end.

(** Whether one product passes the three filters of [applyFilters]. *)
Definition passes (searchTerm selectedCategory : string)
    (stockFilter : StockFilter) (product : Product) : bool :=
  (if truthy searchTerm then matchesSearch searchTerm product else true)
  && (if truthy selectedCategory
      then String.eqb (category product) selectedCategory else true)
  && match stockFilter with
     | low => (current_stock product <=? min_stock_level product)
              && (current_stock product >? 0)
     | out => current_stock product =? 0
     | all => true
     end.

End Search.

(** The "Needs restocking" note of a card (line 332). *)
Definition needsRestocking (product : Product) : bool :=
  match getStockStatus product with
  | Good => false
  | _ => true
  end.

(** [handleDelete] (lines 193-209): the storage and the view's [products]
    afterwards.  [confirmed] is the answer to [window.confirm]. *)
Definition handleDelete (user : AuthService.User) (confirmed : bool)
    (productId : string) (st : ProductService.Storage) (products : list Product)
    : ProductService.Storage * list Product :=
  match AuthService.user_role user with
  | AuthService.admin =>
      if confirmed
      then (snd (ProductService.delete productId st),
            List.filter (fun p => negb (String.eqb (id p) productId)) products)
      else (st, products)
  | AuthService.associate => (st, products)
  end.

End ViewInventory.

(** ** The product form ([src/components/AddProduct.tsx]) *)

Module AddProduct.

(** The state [formData]; the numeric fields hold what [handleInputChange]
    stored, the stock fields being whole numbers. *)
Record FormData := mkForm {
  f_name : string;
  f_description : string;
  f_category : string;
  f_brand : string;
  f_sku : string;
  f_barcode : string;
  f_current_stock : Z;
  f_min_stock_level : Z;
  f_max_stock_level : Z;
  f_cost_price : float;
  f_selling_price : float;
  f_supplier : string;
  f_location : string
}.

(** The blank form (lines 11-25, 73-87 and 97-111). *)
Definition blankForm : FormData :=
  mkForm "" "" "" "" "" "" 0 0 0 0%float 0%float "" "".

Inductive Message :=
| success (text : string)
| failure (text : string).

(** [{ ...formData, sku }] (lines 65-68). *)
Definition submitted (formData : FormData) (sku : string)
    : ProductService.NewProduct :=
  ProductService.mkNew (f_name formData) (f_description formData)
    (f_category formData) (f_brand formData) sku (Some (f_barcode formData))
    (f_current_stock formData) (f_min_stock_level formData)
    (f_max_stock_level formData) (f_cost_price formData)
    (f_selling_price formData) (f_supplier formData) (f_location formData).

(** [handleSubmit] (lines 50-94): the message shown, the form and the
    storage afterwards.  [generated] is what [generateSKU()] would return;
    [ms], [created] and [updated] are the clock readings of [create]. *)
Definition handleSubmit (user : AuthService.User) (formData : FormData)
    (generated : string) (ms : Z) (created updated : string)
    (st : ProductService.Storage)
    : Message * FormData * ProductService.Storage :=
  match AuthService.user_role user with
  | AuthService.associate =>
      (failure "Only administrators can add products.", formData, st)
  | AuthService.admin =>
      let sku := if ViewInventory.truthy (f_sku formData)
                 then f_sku formData else generated in
      let st' := snd (ProductService.create ms created updated
                        (submitted formData sku) st) in
      (success "Product added successfully!", blankForm, st')
  end.

End AddProduct.

(** * Binary64 arithmetic

    The operations of [SpecFloat], which the primitive numbers implement
    ([FloatAxioms]), round to nearest: on non-negative numbers and below the
    overflow threshold the result of a product, a sum or a quotient is
    within [unitRoundoff * x + tiny] of the exact result [x]. *)

(** ** The number of binary digits *)

Lemma digits2_pos_bounds (p : positive) :
  2 ^ (Z.pos (digits2_pos p) - 1) <= Z.pos p < 2 ^ Z.pos (digits2_pos p).
Proof.
  induction p as [p IH|p IH|]; cbn [digits2_pos].
  - rewrite Pos2Z.inj_succ. change (Z.pos p~1) with (2 * Z.pos p + 1).
    replace (Z.succ (Z.pos (digits2_pos p)) - 1) with (Z.succ (Z.pos (digits2_pos p) - 1)) by lia.
    rewrite !Z.pow_succ_r by lia.
    revert IH. generalize (2 ^ (Z.pos (digits2_pos p) - 1)) (2 ^ Z.pos (digits2_pos p)).
    intros a b IH. lia.
  - rewrite Pos2Z.inj_succ. change (Z.pos p~0) with (2 * Z.pos p).
    replace (Z.succ (Z.pos (digits2_pos p)) - 1) with (Z.succ (Z.pos (digits2_pos p) - 1)) by lia.
    rewrite !Z.pow_succ_r by lia.
    revert IH. generalize (2 ^ (Z.pos (digits2_pos p) - 1)) (2 ^ Z.pos (digits2_pos p)).
    intros a b IH. lia.
  - simpl. lia.
Qed.

Lemma Zdigits2_bounds (m : Z) :
  0 < m -> 2 ^ (Zdigits2 m - 1) <= m < 2 ^ Zdigits2 m.
Proof.
  destruct m as [|p|p]; try lia. intros _. apply digits2_pos_bounds.
Qed.

Lemma Zdigits2_nonneg (m : Z) : 0 <= Zdigits2 m.
Proof. destruct m; simpl; lia. Qed.

(** A number below [2 ^ k] has at most [k] digits, one at least [2 ^ k]
    more than [k]. *)
Lemma Zdigits2_le (m k : Z) : 0 <= k -> 0 <= m < 2 ^ k -> Zdigits2 m <= k.
Proof.
  intros Hk [H0 Hm]. destruct (Z.eq_dec m 0) as [->|Hne]; [simpl; lia|].
  pose proof (Zdigits2_bounds m ltac:(lia)) as [Hlo _].
  destruct (Z_le_gt_dec (Zdigits2 m) k) as [|Hgt]; [assumption|exfalso].
  assert (2 ^ k <= 2 ^ (Zdigits2 m - 1)) by (apply Z.pow_le_mono_r; lia).
  lia.
Qed.

Lemma Zdigits2_gt (m k : Z) : 0 <= k -> 2 ^ k <= m -> k < Zdigits2 m.
Proof.
  intros Hk Hm. assert (0 < m) by (pose proof (Z.pow_pos_nonneg 2 k); lia).
  pose proof (Zdigits2_bounds m ltac:(lia)) as [_ Hhi].
  destruct (Z_lt_le_dec k (Zdigits2 m)) as [|Hle]; [assumption|exfalso].
  assert (2 ^ Zdigits2 m <= 2 ^ k)
    by (apply Z.pow_le_mono_r; [lia|lia]).
  lia.
Qed.

(** ** Shifting a mantissa to the right

    One shift halves the mantissa and keeps track, in the round and sticky
    bits, of where the value lies above it. *)

Lemma shr_1_Located (N D : Z) (mrs : shr_record) :
  0 <= shr_m mrs -> 0 < D -> Located N D mrs ->
  Located N (2 * D) (shr_1 mrs) /\ 0 <= shr_m (shr_1 mrs).
Proof.
  destruct mrs as [m r s]. unfold Located. cbn [shr_m shr_r shr_s].
  intros Hm HD [Hin Hloc].
  destruct m as [|p|p]; [| |lia].
  - destruct r, s; cbn [shr_1 shr_m shr_r shr_s orb]; lia.
  - destruct p as [p|p|]; cbn [shr_1 shr_m shr_r shr_s];
      try change (Z.pos p~1) with (2 * Z.pos p + 1) in *;
      try change (Z.pos p~0) with (2 * Z.pos p) in *;
      destruct r, s; cbn [orb]; lia.
Qed.

Lemma iter_pos_shr_1_Located (n : positive) :
  forall (N D : Z) (mrs : shr_record),
    0 <= shr_m mrs -> 0 < D -> Located N D mrs ->
    Located N (2 ^ Z.pos n * D) (SpecFloat.iter_pos shr_1 n mrs) /\
    0 <= shr_m (SpecFloat.iter_pos shr_1 n mrs).
Proof.
  induction n as [n IH|n IH|]; intros N D mrs Hm HD HL; cbn [SpecFloat.iter_pos].
  - destruct (shr_1_Located N D mrs Hm HD HL) as [H1 Hm1].
    destruct (IH N (2 * D) _ Hm1 ltac:(lia) H1) as [H2 Hm2].
    assert (HD2 : 0 < 2 ^ Z.pos n * (2 * D))
      by (pose proof (Z.pow_pos_nonneg 2 (Z.pos n)); nia).
    destruct (IH N _ _ Hm2 HD2 H2) as [H3 Hm3].
    split; [|exact Hm3].
    replace (2 ^ Z.pos n~1 * D) with (2 ^ Z.pos n * (2 ^ Z.pos n * (2 * D))); [exact H3|].
    change (Z.pos n~1) with (2 * Z.pos n + 1).
    rewrite Z.pow_add_r, Z.pow_mul_r by lia.
    change (2 ^ 2) with 4. rewrite Z.pow_1_r.
    replace 4 with (2 * 2) by reflexivity. rewrite Z.pow_mul_l. ring.
  - destruct (IH N D _ Hm HD HL) as [H2 Hm2].
    assert (HD2 : 0 < 2 ^ Z.pos n * D)
      by (pose proof (Z.pow_pos_nonneg 2 (Z.pos n)); nia).
    destruct (IH N _ _ Hm2 HD2 H2) as [H3 Hm3].
    split; [|exact Hm3].
    replace (2 ^ Z.pos n~0 * D) with (2 ^ Z.pos n * (2 ^ Z.pos n * D)); [exact H3|].
    change (Z.pos n~0) with (2 * Z.pos n).
    rewrite Z.pow_mul_r by lia.
    change (2 ^ 2) with 4.
    replace 4 with (2 * 2) by reflexivity. rewrite Z.pow_mul_l. ring.
  - rewrite Z.pow_1_r. apply shr_1_Located; assumption.
Qed.

(** [shr] by [n] digits, when [n] is not negative. *)
Lemma shr_Located (N D : Z) (mrs : shr_record) (e n : Z) :
  0 <= shr_m mrs -> 0 < D -> Located N D mrs -> 0 <= n ->
  Located N (2 ^ n * D) (fst (shr mrs e n)) /\
  0 <= shr_m (fst (shr mrs e n)) /\
  snd (shr mrs e n) = e + n.
Proof.
  intros Hm HD HL Hn. destruct n as [|p|p]; [| |lia]; cbn [shr fst snd].
  - rewrite Z.pow_0_r, Z.mul_1_l. split; [exact HL|]. split; [exact Hm|lia].
  - destruct (iter_pos_shr_1_Located p N D mrs Hm HD HL) as [H1 H2].
    split; [exact H1|]. split; [exact H2|reflexivity].
Qed.

Lemma shr_negative (mrs : shr_record) (e n : Z) :
  n <= 0 -> shr mrs e n = (mrs, e).
Proof. destruct n; [reflexivity|lia|reflexivity]. Qed.

(** A located mantissa is rounded to within half a unit, and not at all
    when the value is the mantissa itself. *)
Lemma round_nearest_even_Located (N D : Z) (mrs : shr_record) :
  0 <= shr_m mrs -> 0 < D -> Located N D mrs ->
  let m1 := round_nearest_even (shr_m mrs) (loc_of_shr_record mrs) in
  shr_m mrs <= m1 <= shr_m mrs + 1 /\
  2 * Z.abs (m1 * D - N) <= D /\
  (N = shr_m mrs * D -> m1 = shr_m mrs).
Proof.
  destruct mrs as [m r s]. unfold Located. cbn [shr_m shr_r shr_s].
  intros Hm HD [Hin Hloc].
  destruct r, s; cbn [loc_of_shr_record round_nearest_even];
    try destruct (Z.even m); lia.
Qed.

Lemma Located_of_loc_exact (m D : Z) :
  0 < D -> Located (m * D) D (shr_record_of_loc m loc_Exact).
Proof. intros HD. unfold Located. cbn. lia. Qed.

(** ** The rounding of [binary_round_aux]

    The exponent binary64 gives a number of [e] digits in all. *)
Lemma fexp64 (e : Z) : fexp prec emax e = Z.max (e - 53) (-1074).
Proof. reflexivity. Qed.

Lemma shr_m_of_loc (m : Z) (l : SpecFloat.location) :
  shr_m (shr_record_of_loc m l) = m.
Proof. destruct l as [|[]]; reflexivity. Qed.

Lemma Zdigits2_lt (m : Z) : 0 <= m -> m < 2 ^ Zdigits2 m.
Proof.
  intros Hm. destruct (Z.eq_dec m 0) as [->|Hne]; [reflexivity|].
  apply Zdigits2_bounds. lia.
Qed.

(** Once the mantissa is rounded, the second shift of [binary_round_aux]
    moves by at most one digit. *)
Lemma second_stage (sx : bool) (m1 e1 : Z) :
  0 <= m1 <= 2 ^ 53 -> -1074 <= e1 ->
  (let '(mrs, e) := shr_fexp prec emax m1 e1 loc_Exact in
   match shr_m mrs with
   | Z0 => S754_zero sx
   | Zpos m => if e <=? emax - prec then S754_finite sx m e else S754_infinity sx
   | Zneg _ => S754_nan
   end) = packed sx m1 e1.
Proof.
  intros Hm He. unfold packed, shr_fexp. rewrite fexp64.
  destruct (Z.eqb_spec m1 0) as [->|Hne].
  - cbn [Zdigits2]. rewrite shr_negative by lia. reflexivity.
  - destruct (Z.eqb_spec m1 (2 ^ 53)) as [->|Hne2].
    + change (Zdigits2 (2 ^ 53)) with 54.
      replace (Z.max (54 + e1 - 53) (-1074) - e1) with 1 by lia.
      cbn [shr_record_of_loc shr SpecFloat.iter_pos].
      change (shr_m (shr_1 {| shr_m := 2 ^ 53; shr_r := false; shr_s := false |}))
        with (2 ^ 52).
      change (emax - prec) with 971. reflexivity.
    + assert (Hd : Zdigits2 m1 <= 53) by (apply Zdigits2_le; lia).
      rewrite shr_negative by lia. cbn [shr_record_of_loc shr_m].
      destruct m1 as [|p|p]; [lia| |lia].
      change (emax - prec) with 971. rewrite Pos2Z.id. reflexivity.
Qed.

(** [binary_round_aux] rounds the located value to the nearest mantissa
    at the exponent binary64 gives it. *)
Lemma binary_round_aux_spec (sx : bool) (mx ex : Z) (lx : SpecFloat.location)
    (N D : Z) :
  0 <= mx -> 0 < D ->
  Located N D (shr_record_of_loc mx lx) ->
  (lx = loc_Exact \/ ex <= fexp prec emax (Zdigits2 mx + ex)) ->
  let e1 := Z.max ex (fexp prec emax (Zdigits2 mx + ex)) in
  exists m1,
    0 <= m1 <= 2 ^ 53 /\
    2 * Z.abs (m1 * (2 ^ (e1 - ex) * D) - N) <= 2 ^ (e1 - ex) * D /\
    (fexp prec emax (Zdigits2 mx + ex) < ex -> m1 * D = N) /\
    binary_round_aux prec emax sx mx ex lx = packed sx m1 e1.
Proof.
  intros Hmx HD HL Hpre e1. subst e1. rewrite fexp64 in *.
  pose proof (Zdigits2_lt mx Hmx) as Hlt.
  pose proof (Zdigits2_nonneg mx) as Hd0.
  unfold binary_round_aux. unfold shr_fexp at 1. rewrite fexp64.
  set (d := Zdigits2 mx) in *.
  destruct (Z_le_gt_dec (Z.max (d + ex - 53) (-1074) - ex) 0) as [Hn|Hn].
  - (* no shift *)
    rewrite shr_negative by exact Hn.
    pose proof (round_nearest_even_Located N D _ ltac:(rewrite shr_m_of_loc; exact Hmx) HD HL)
      as Hr. cbv zeta in Hr. rewrite shr_m_of_loc in Hr. rewrite shr_m_of_loc.
    set (m1 := round_nearest_even mx
                 (loc_of_shr_record (shr_record_of_loc mx lx))) in *.
    destruct Hr as (Hm1 & Herr & Hexact).
    assert (Hd53 : d <= 53) by lia.
    assert (Hmx53 : mx < 2 ^ 53).
    { assert (2 ^ d <= 2 ^ 53) by (apply Z.pow_le_mono_r; lia). lia. }
    replace (Z.max ex (Z.max (d + ex - 53) (-1074))) with ex by lia.
    exists m1. split; [lia|]. split; [|split].
    + rewrite Z.sub_diag, Z.pow_0_r, Z.mul_1_l. exact Herr.
    + intros Hlt'. destruct Hpre as [->|Hpre]; [|lia].
      unfold Located in HL. cbn in HL. rewrite Hexact by lia. lia.
    + apply second_stage; lia.
  - (* shift by [n] digits *)
    set (n := Z.max (d + ex - 53) (-1074) - ex) in *.
    destruct (shr_Located N D (shr_record_of_loc mx lx) ex n
                ltac:(rewrite shr_m_of_loc; exact Hmx) HD HL ltac:(lia))
      as (HL' & Hm' & He').
    destruct (shr (shr_record_of_loc mx lx) ex n) as [mrs' e'] eqn:Hshr.
    cbn [fst snd] in *. subst e'.
    assert (HD' : 0 < 2 ^ n * D) by (pose proof (Z.pow_pos_nonneg 2 n); nia).
    pose proof (round_nearest_even_Located N _ mrs' Hm' HD' HL') as Hr.
    cbv zeta in Hr.
    set (m1 := round_nearest_even (shr_m mrs') (loc_of_shr_record mrs')) in *.
    destruct Hr as (Hm1 & Herr & _).
    replace (Z.max ex (Z.max (d + ex - 53) (-1074))) with (ex + n) by lia.
    replace (ex + n - ex) with n by lia.
    assert (Hm53 : shr_m mrs' < 2 ^ 53).
    { unfold Located in HL, HL'. rewrite shr_m_of_loc in HL.
      destruct HL as [[_ Hup] _]. destruct HL' as [[Hlo _] _].
      assert (Hpow : 2 ^ d <= 2 ^ n * 2 ^ 53).
      { rewrite <- Z.pow_add_r by lia. apply Z.pow_le_mono_r; lia. }
      assert (shr_m mrs' * (2 ^ n * D) < 2 ^ 53 * (2 ^ n * D)) by nia.
      apply Z.mul_lt_mono_pos_r in H; assumption. }
    exists m1. split; [lia|]. split; [exact Herr|]. split; [lia|].
    apply second_stage; lia.
Qed.

(** ** Values in the rationals *)

Lemma pow2_pos (e : Z) : (0 < 2 ^ e)%Q.
Proof. apply Qpower_0_lt. reflexivity. Qed.

Lemma pow2_add (a b : Z) : (2 ^ (a + b) == 2 ^ a * 2 ^ b)%Q.
Proof. apply Qpower_plus. discriminate. Qed.

Lemma pow2_le (a b : Z) : a <= b -> (2 ^ a <= 2 ^ b)%Q.
Proof. intros H. apply Qpower_le_compat_l; [exact H|discriminate]. Qed.

Lemma pow2_lt_inv (a b : Z) : (2 ^ a < 2 ^ b)%Q -> a < b.
Proof. intros H. apply (Qpower_lt_compat_l_inv 2); [exact H|reflexivity]. Qed.

Lemma pow2_Z (n : Z) : 0 <= n -> (inject_Z (2 ^ n) == 2 ^ n)%Q.
Proof. intros H. apply (Zpower_Qpower 2 n H). Qed.

Lemma inject_Z_le (a b : Z) : a <= b -> (inject_Z a <= inject_Z b)%Q.
Proof. intros H. rewrite <- Zle_Qle. exact H. Qed.

Lemma SFvalue_packed (m1 e1 : Z) :
  0 <= m1 <= 2 ^ 53 -> e1 <= 970 ->
  SFfinite (packed false m1 e1) = true /\
  (SFvalue (packed false m1 e1) == inject_Z m1 * 2 ^ e1)%Q.
Proof.
  intros Hm He. unfold packed.
  destruct (Z.eqb_spec m1 0) as [->|Hne].
  - split; [reflexivity|]. cbn. ring.
  - destruct (Z.eqb_spec m1 (2 ^ 53)) as [->|Hne2].
    + destruct (Z.leb_spec (e1 + 1) 971); [|lia]. split; [reflexivity|].
      cbn [SFvalue]. change (Z.pos (Z.to_pos (2 ^ 52))) with (2 ^ 52).
      rewrite !pow2_Z by lia. rewrite <- !pow2_add.
      replace (53 + e1) with (52 + (e1 + 1)) by lia. reflexivity.
    + destruct (Z.leb_spec e1 971); [|lia]. split; [reflexivity|].
      cbn [SFvalue]. rewrite Z2Pos.id by lia. reflexivity.
Qed.

Lemma Qabs_inject_Z (z : Z) : Qabs (inject_Z z) = inject_Z (Z.abs z).
Proof. reflexivity. Qed.

(** A mantissa rounded to within half a unit of the last place, seen in
    the rationals. *)
Lemma half_ulp_Q (m1 k ex N D : Z) :
  0 <= k -> 0 < D ->
  2 * Z.abs (m1 * (2 ^ k * D) - N) <= 2 ^ k * D ->
  (Qabs (inject_Z m1 * 2 ^ (ex + k) - inject_Z N / inject_Z D * 2 ^ ex)
   <= 2 ^ (ex + k - 1))%Q.
Proof.
  intros Hk HD H.
  assert (HDq : (0 < inject_Z D)%Q) by (rewrite Zlt_Qlt in HD; exact HD).
  assert (Hnz : ~ (inject_Z D == 0)%Q) by lra.
  pose proof (pow2_pos ex) as Hex.
  set (c := (2 ^ ex / inject_Z D)%Q).
  assert (Hc : (0 < c)%Q).
  { unfold c. apply Qlt_shift_div_l; [exact HDq|]. lra. }
  assert (E1 : (inject_Z m1 * 2 ^ (ex + k) - inject_Z N / inject_Z D * 2 ^ ex
                == inject_Z (m1 * (2 ^ k * D) - N) * c)%Q).
  { unfold c. rewrite pow2_add. unfold Z.sub.
    rewrite inject_Z_plus, inject_Z_opp, !inject_Z_mult, (pow2_Z k Hk).
    field. exact Hnz. }
  assert (E2 : (2 ^ (ex + k - 1) == inject_Z (2 ^ k * D) * c / 2)%Q).
  { unfold c. replace (ex + k - 1) with (ex + k + -1) by lia.
    rewrite !pow2_add, inject_Z_mult, (pow2_Z k Hk).
    change (2 ^ (-1))%Q with (1 # 2). field. exact Hnz. }
  rewrite E1, E2, Qabs_Qmult, (Qabs_pos c) by lra.
  assert (Habs : (Qabs (inject_Z (m1 * (2 ^ k * D) - N)) * 2
                  <= inject_Z (2 ^ k * D))%Q).
  { rewrite Qabs_inject_Z.
    change 2%Q with (inject_Z 2). rewrite <- inject_Z_mult, <- Zle_Qle. lia. }
  set (a := Qabs (inject_Z (m1 * (2 ^ k * D) - N))) in *.
  set (b := inject_Z (2 ^ k * D)) in *.
  assert (Hmul : (a * c <= b * (1 # 2) * c)%Q)
    by (apply Qmult_le_compat_r; lra).
  eapply Qle_trans; [exact Hmul|]. apply Qle_lteq. right. field.
Qed.

Lemma SFnonneg_packed (m1 e1 : Z) :
  e1 <= 970 -> SFnonneg (packed false m1 e1) = true.
Proof.
  intros He. unfold packed.
  destruct (m1 =? 0); [reflexivity|].
  destruct (m1 =? 2 ^ 53).
  - destruct (Z.leb_spec (e1 + 1) 971); [reflexivity|lia].
  - destruct (Z.leb_spec e1 971); [reflexivity|lia].
Qed.

Lemma SFvalue_nonneg (x : spec_float) : SFnonneg x = true -> (0 <= SFvalue x)%Q.
Proof.
  destruct x as [s|s| |[|] m e]; cbn; try discriminate; try lra.
  intros _. pose proof (pow2_pos e).
  apply Qmult_le_0_compat; [|lra].
  change 0%Q with (inject_Z 0). rewrite <- Zle_Qle. lia.
Qed.

Lemma SFnonneg_finite (x : spec_float) : SFnonneg x = true -> SFfinite x = true.
Proof. destruct x as [s|s| |[|] m e]; cbn; congruence. Qed.

(** Rounding to nearest of the value [N / D * 2 ^ ex], known through the
    mantissa [mx] and the location [lx], below the overflow threshold. *)
Lemma round_Q (mx ex : Z) (lx : SpecFloat.location) (N D : Z) (X : Q) :
  0 <= mx -> 0 < D ->
  Located N D (shr_record_of_loc mx lx) ->
  ex <= fexp prec emax (Zdigits2 mx + ex) ->
  (X == inject_Z N / inject_Z D * 2 ^ ex)%Q ->
  (X < 2 ^ 1000)%Q ->
  let r := binary_round_aux prec emax false mx ex lx in
  SFnonneg r = true /\
  (Qabs (SFvalue r - X) <= unitRoundoff * X + tiny)%Q.
Proof.
  intros Hmx HD HL Hpre HX Hbound r. subst r.
  destruct (binary_round_aux_spec false mx ex lx N D Hmx HD HL (or_intror Hpre))
    as (m1 & Hm1 & Herr & _ & ->).
  rewrite fexp64 in *.
  set (d := Zdigits2 mx) in *.
  replace (Z.max ex (Z.max (d + ex - 53) (-1074)))
    with (Z.max (d + ex - 53) (-1074)) in * by lia.
  set (e1 := Z.max (d + ex - 53) (-1074)) in *.
  assert (HDq : (0 < inject_Z D)%Q) by (rewrite Zlt_Qlt in HD; exact HD).
  assert (Hquot : (inject_Z mx <= inject_Z N / inject_Z D)%Q).
  { apply Qle_shift_div_l; [exact HDq|].
    rewrite <- inject_Z_mult, <- Zle_Qle.
    unfold Located in HL. rewrite shr_m_of_loc in HL. lia. }
  pose proof (pow2_pos ex) as Hex.
  assert (HXlow : (inject_Z mx * 2 ^ ex <= X)%Q).
  { rewrite HX. apply Qmult_le_compat_r; [exact Hquot|lra]. }
  assert (HX0 : (0 <= X)%Q).
  { eapply Qle_trans; [|exact HXlow]. apply Qmult_le_0_compat; [|lra].
    change 0%Q with (inject_Z 0). rewrite <- Zle_Qle. exact Hmx. }
  assert (Hdig : 0 < mx -> (2 ^ (d - 1 + ex) <= X)%Q).
  { intros Hpos. eapply Qle_trans; [|exact HXlow]. rewrite pow2_add.
    apply Qmult_le_compat_r; [|lra].
    rewrite <- pow2_Z by (pose proof (Zdigits2_gt mx 0 ltac:(lia) ltac:(simpl; lia)); lia).
    rewrite <- Zle_Qle. apply Zdigits2_bounds, Hpos. }
  assert (He1 : e1 <= 970).
  { destruct (Z.eq_dec mx 0) as [E|Hne].
    - subst mx. unfold d in *. cbn [Zdigits2] in *. lia.
    - assert (d - 1 + ex < 1000); [|lia].
      apply pow2_lt_inv. eapply Qle_lt_trans; [apply Hdig; lia|exact Hbound]. }
  destruct (SFvalue_packed m1 e1 Hm1 He1) as [_ Hval].
  split; [apply SFnonneg_packed, He1|].
  rewrite Hval.
  pose proof (half_ulp_Q m1 (e1 - ex) ex N D ltac:(lia) HD Herr) as Hhalf.
  replace (ex + (e1 - ex)) with e1 in Hhalf by lia.
  rewrite <- HX in Hhalf.
  eapply Qle_trans; [exact Hhalf|].
  destruct (Z.eq_dec e1 (-1074)) as [E|Hne].
  - rewrite E. change (2 ^ (-1074 - 1))%Q with tiny.
    assert (0 <= unitRoundoff * X)%Q
      by (apply Qmult_le_0_compat; [discriminate|exact HX0]).
    lra.
  - assert (E : e1 = d + ex - 53) by lia.
    assert (Hpos : 0 < mx).
    { destruct (Z.eq_dec mx 0) as [E0|]; [|lia].
      subst mx. unfold d in *. cbn [Zdigits2] in *. lia. }
    replace (e1 - 1) with (-53 + (d - 1 + ex)) by lia.
    rewrite pow2_add. fold unitRoundoff.
    assert (unitRoundoff * 2 ^ (d - 1 + ex) <= unitRoundoff * X)%Q.
    { rewrite !(Qmult_comm unitRoundoff).
      apply Qmult_le_compat_r; [apply Hdig, Hpos|discriminate]. }
    assert (0 <= tiny)%Q by discriminate. lra.
Qed.

(** ** Canonical mantissas *)

Lemma valid_finite (s : bool) (m : positive) (e : Z) :
  valid_binary (S754_finite s m e) = true ->
  Z.pos (digits2_pos m) <= 53 /\ -1074 <= e <= 971 /\
  (Z.pos (digits2_pos m) = 53 \/ e = -1074) /\
  e = Z.max (Z.pos (digits2_pos m) + e - 53) (-1074).
Proof.
  cbn [SpecFloat.valid_binary]. unfold bounded, canonical_mantissa.
  rewrite fexp64, andb_true_iff, Z.eqb_eq, Z.leb_le.
  change (emax - prec) with 971. lia.
Qed.

Lemma iter_xO_value (m d : positive) :
  Z.pos (Pos.iter xO m d) = Z.pos m * 2 ^ Z.pos d.
Proof.
  induction d as [|d IH] using Pos.peano_ind.
  - cbn [Pos.iter]. change (Z.pos m~0) with (2 * Z.pos m). lia.
  - rewrite Pos.iter_succ, Pos2Z.inj_succ, Z.pow_succ_r by lia.
    change (Z.pos (Pos.iter xO m d)~0) with (2 * Z.pos (Pos.iter xO m d)).
    rewrite IH. ring.
Qed.

Lemma iter_xO_digits (m d : positive) :
  Z.pos (digits2_pos (Pos.iter xO m d)) = Z.pos (digits2_pos m) + Z.pos d.
Proof.
  induction d as [|d IH] using Pos.peano_ind.
  - cbn [Pos.iter digits2_pos]. lia.
  - rewrite Pos.iter_succ. cbn [digits2_pos]. rewrite Pos2Z.inj_succ, IH. lia.
Qed.

(** [shl_align] keeps the value and lowers the exponent to [e'] when it
    is above. *)
Lemma shl_align_spec (m : positive) (e e' : Z) :
  let r := shl_align m e e' in
  snd r = Z.min e e' /\
  Z.pos (fst r) = Z.pos m * 2 ^ (e - snd r) /\
  Z.pos (digits2_pos (fst r)) = Z.pos (digits2_pos m) + (e - snd r).
Proof.
  unfold shl_align. destruct (e' - e) as [|d|d] eqn:E; cbn [fst snd].
  - replace (e - e) with 0 by lia. rewrite Z.pow_0_r. lia.
  - replace (e - e) with 0 by lia. rewrite Z.pow_0_r. lia.
  - replace (e - e') with (Z.pos d) by lia.
    rewrite iter_xO_value, iter_xO_digits. lia.
Qed.

Lemma SFvalue_finite_false (m : positive) (e : Z) :
  SFvalue (S754_finite false m e) = (inject_Z (Z.pos m) * 2 ^ e)%Q.
Proof. reflexivity. Qed.

(** ** Rounding a positive integer times a power of two *)

Lemma binary_round_Q (m : positive) (e : Z) :
  (inject_Z (Z.pos m) * 2 ^ e < 2 ^ 1000)%Q ->
  let r := binary_round prec emax false m e in
  SFnonneg r = true /\
  (Qabs (SFvalue r - inject_Z (Z.pos m) * 2 ^ e)
   <= unitRoundoff * (inject_Z (Z.pos m) * 2 ^ e) + tiny)%Q.
Proof.
  intros Hbound. cbv zeta. unfold binary_round.
  pose proof (shl_align_spec m e (fexp prec emax (Z.pos (digits2_pos m) + e)))
    as Hs. cbv zeta in Hs.
  destruct (shl_align m e (fexp prec emax (Z.pos (digits2_pos m) + e)))
    as [mz ez]. cbn [fst snd] in Hs. destruct Hs as (Hez & Hmz & Hdz).
  assert (Hval : (inject_Z (Z.pos m) * 2 ^ e
                  == inject_Z (Z.pos mz) / inject_Z 1 * 2 ^ ez)%Q).
  { rewrite Hmz, inject_Z_mult, pow2_Z by lia.
    replace e with ((e - ez) + ez) at 1 by lia. rewrite pow2_add.
    change (inject_Z 1) with 1%Q. field. }
  apply (round_Q (Z.pos mz) ez loc_Exact (Z.pos mz) 1); try lia.
  - pose proof (Located_of_loc_exact (Z.pos mz) 1 ltac:(lia)) as H.
    rewrite Z.mul_1_r in H. exact H.
  - cbn [Zdigits2]. rewrite Hdz.
    replace (Z.pos (digits2_pos m) + (e - ez) + ez)
      with (Z.pos (digits2_pos m) + e) by lia. lia.
  - exact Hval.
  - exact Hbound.
Qed.

(** Below [2 ^ 53] nothing is rounded, and the result is a valid
    number. *)
Lemma binary_round_exact (m : positive) :
  Z.pos m < 2 ^ 53 ->
  let r := binary_round prec emax false m 0 in
  valid_binary r = true /\ SFnonneg r = true /\
  (SFvalue r == inject_Z (Z.pos m))%Q.
Proof.
  intros Hm. cbv zeta. unfold binary_round.
  pose proof (shl_align_spec m 0 (fexp prec emax (Z.pos (digits2_pos m) + 0)))
    as Hs. cbv zeta in Hs.
  destruct (shl_align m 0 (fexp prec emax (Z.pos (digits2_pos m) + 0)))
    as [mz ez]. cbn [fst snd] in Hs. destruct Hs as (Hez & Hmz & Hdz).
  rewrite fexp64 in Hez.
  assert (Hd : Z.pos (digits2_pos m) <= 53).
  { change (Z.pos (digits2_pos m)) with (Zdigits2 (Z.pos m)).
    apply Zdigits2_le; lia. }
  assert (Ez : ez = Z.pos (digits2_pos m) - 53) by lia.
  assert (Hdz53 : Z.pos (digits2_pos mz) = 53) by lia.
  assert (Hmz53 : Z.pos mz < 2 ^ 53).
  { change 53 with (Z.pos 53) in Hdz53 at 1.
    pose proof (digits2_pos_bounds mz) as [_ H]. rewrite Hdz53 in H. exact H. }
  pose proof (Located_of_loc_exact (Z.pos mz) 1 ltac:(lia)) as HL.
  rewrite Z.mul_1_r in HL.
  destruct (binary_round_aux_spec false (Z.pos mz) ez loc_Exact (Z.pos mz) 1
              ltac:(lia) ltac:(lia) HL (or_introl eq_refl))
    as (m1 & Hm1 & Herr & _ & ->).
  cbn [Zdigits2] in *. rewrite fexp64 in *.
  replace (Z.max ez (Z.max (Z.pos (digits2_pos mz) + ez - 53) (-1074)))
    with ez in * by lia.
  rewrite Z.sub_diag, Z.pow_0_r, !Z.mul_1_r in Herr.
  assert (E : m1 = Z.pos mz) by lia. subst m1.
  unfold packed.
  destruct (Z.eqb_spec (Z.pos mz) 0); [lia|].
  destruct (Z.eqb_spec (Z.pos mz) (2 ^ 53)); [lia|].
  destruct (Z.leb_spec ez 971); [|lia].
  rewrite Pos2Z.id. split; [|split; [reflexivity|]].
  - cbn [SpecFloat.valid_binary]. unfold bounded, canonical_mantissa.
    rewrite fexp64, andb_true_iff, Z.eqb_eq, Z.leb_le.
    change (emax - prec) with 971. lia.
  - rewrite SFvalue_finite_false, Hmz, inject_Z_mult, pow2_Z by lia.
    rewrite <- Qmult_assoc, <- pow2_add.
    replace (0 - ez + ez) with 0 by lia. change (2 ^ 0)%Q with 1%Q. ring.
Qed.

(** ** The operations on non-negative numbers *)

Lemma Qabs_exact (a b : Q) :
  (a == b)%Q -> (0 <= b)%Q -> (Qabs (a - b) <= unitRoundoff * b + tiny)%Q.
Proof.
  intros E Hb. assert (E0 : (a - b == 0)%Q) by (rewrite E; ring).
  rewrite E0. change (Qabs 0) with 0%Q.
  pose proof (pow2_pos (-53)) as Hu. pose proof (pow2_pos (-1075)) as Ht.
  unfold unitRoundoff, tiny.
  assert (0 <= 2 ^ (-53) * b)%Q by (apply Qmult_le_0_compat; lra).
  lra.
Qed.

Lemma digits_mul (a b : positive) :
  Z.pos (digits2_pos a) + Z.pos (digits2_pos b) - 1
  <= Zdigits2 (Z.pos (a * b)).
Proof.
  pose proof (digits2_pos_bounds a) as [Ha _].
  pose proof (digits2_pos_bounds b) as [Hb _].
  set (da := Z.pos (digits2_pos a)) in *. set (db := Z.pos (digits2_pos b)) in *.
  assert (Hda : 1 <= da) by (unfold da; lia).
  assert (Hdb : 1 <= db) by (unfold db; lia).
  enough (da + db - 2 < Zdigits2 (Z.pos (a * b))) by lia.
  apply Zdigits2_gt; [lia|].
  replace (da + db - 2) with ((da - 1) + (db - 1)) by lia.
  rewrite Z.pow_add_r, Pos2Z.inj_mul by lia.
  apply Z.mul_le_mono_nonneg; try lia; apply Z.pow_nonneg; lia.
Qed.

Lemma SFmul_Q (x y : spec_float) :
  valid_binary x = true -> valid_binary y = true ->
  SFnonneg x = true -> SFnonneg y = true ->
  (SFvalue x * SFvalue y < 2 ^ 1000)%Q ->
  SFnonneg (SFmul prec emax x y) = true /\
  (Qabs (SFvalue (SFmul prec emax x y) - SFvalue x * SFvalue y)
   <= unitRoundoff * (SFvalue x * SFvalue y) + tiny)%Q.
Proof.
  intros Vx Vy Nx Ny Hb.
  destruct x as [sx|sx| |[|] mx ex]; try discriminate;
    destruct y as [sy|sy| |[|] my ey]; try discriminate.
  - split; [reflexivity|]. apply Qabs_exact; cbn [SFmul SFvalue]; [ring|lra].
  - split; [reflexivity|]. apply Qabs_exact; cbn [SFmul SFvalue]; [ring|].
    cbv zeta. lra.
  - split; [reflexivity|]. apply Qabs_exact; cbn [SFmul SFvalue]; [ring|].
    cbv zeta. lra.
  - cbn [SFmul xorb]. rewrite !SFvalue_finite_false in *.
    destruct (valid_finite _ _ _ Vx) as (Hdx & Hex & Hcx & _).
    destruct (valid_finite _ _ _ Vy) as (Hdy & Hey & Hcy & _).
    pose proof (digits_mul mx my) as Hd.
    apply (round_Q (Z.pos (mx * my)) (ex + ey) loc_Exact (Z.pos (mx * my)) 1);
      try lia.
    + pose proof (Located_of_loc_exact (Z.pos (mx * my)) 1 ltac:(lia)) as H.
      rewrite Z.mul_1_r in H. exact H.
    + rewrite fexp64. lia.
    + rewrite Pos2Z.inj_mul, inject_Z_mult, pow2_add.
      change (inject_Z 1) with 1%Q. field.
    + exact Hb.
Qed.

Lemma SFadd_Q (x y : spec_float) :
  SFnonneg x = true -> SFnonneg y = true ->
  (SFvalue x + SFvalue y < 2 ^ 1000)%Q ->
  SFnonneg (SFadd prec emax x y) = true /\
  (Qabs (SFvalue (SFadd prec emax x y) - (SFvalue x + SFvalue y))
   <= unitRoundoff * (SFvalue x + SFvalue y) + tiny)%Q.
Proof.
  intros Nx Ny Hb.
  destruct x as [sx|sx| |[|] mx ex]; try discriminate;
    destruct y as [sy|sy| |[|] my ey]; try discriminate.
  - split; [destruct sx, sy; reflexivity|].
    apply Qabs_exact; [destruct sx, sy; cbn [SFadd SFvalue]; ring|].
    cbn [SFvalue]. lra.
  - pose proof (SFvalue_nonneg (S754_finite false my ey) eq_refl) as Hy.
    split; [reflexivity|]. apply Qabs_exact; [cbn [SFadd]|cbn [SFvalue] in *].
    + change (SFvalue (S754_zero sx)) with 0%Q. ring.
    + cbv zeta in *. lra.
  - pose proof (SFvalue_nonneg (S754_finite false mx ex) eq_refl) as Hx.
    split; [reflexivity|]. apply Qabs_exact; [cbn [SFadd]|cbn [SFvalue] in *].
    + change (SFvalue (S754_zero sy)) with 0%Q. ring.
    + cbv zeta in *. lra.
  - cbn [SFadd cond_Zopp]. rewrite !SFvalue_finite_false in *.
    set (ez := Z.min ex ey).
    pose proof (shl_align_spec mx ex ez) as Hx.
    pose proof (shl_align_spec my ey ez) as Hy. cbv zeta in Hx, Hy.
    destruct (shl_align mx ex ez) as [ax ex'].
    destruct (shl_align my ey ez) as [ay ey'].
    cbn [fst snd] in *. destruct Hx as (Hex & Hax & _).
    destruct Hy as (Hey & Hay & _).
    assert (Ex : ex' = ez) by lia. assert (Ey : ey' = ez) by lia.
    subst ex' ey'. rewrite Ex in Hax. rewrite Ey in Hay.
    change (Z.pos ax + Z.pos ay) with (Z.pos (ax + ay)).
    cbn [binary_normalize].
    assert (Hval : (inject_Z (Z.pos (ax + ay)) * 2 ^ ez
                    == inject_Z (Z.pos mx) * 2 ^ ex
                       + inject_Z (Z.pos my) * 2 ^ ey)%Q).
    { rewrite Pos2Z.inj_add, inject_Z_plus, Hax, Hay, !inject_Z_mult.
      rewrite !pow2_Z by lia.
      assert (Px : (2 ^ ex == 2 ^ (ex - ez) * 2 ^ ez)%Q).
      { rewrite <- pow2_add. replace (ex - ez + ez) with ex by lia.
        reflexivity. }
      assert (Py : (2 ^ ey == 2 ^ (ey - ez) * 2 ^ ez)%Q).
      { rewrite <- pow2_add. replace (ey - ez + ez) with ey by lia.
        reflexivity. }
      rewrite Px, Py. ring. }
    rewrite <- Hval in *.
    apply binary_round_Q. exact Hb.
Qed.

(** The location [new_location] gives to a remainder is the right one. *)
Lemma new_location_Located (N D q r : Z) :
  0 < D -> N = D * q + r -> 0 <= r < D ->
  Located N D (shr_record_of_loc q (new_location D r)).
Proof.
  intros HD HN Hr. unfold new_location.
  destruct (Z.even D) eqn:Ev.
  - unfold new_location_even. destruct (Z.eqb_spec r 0) as [->|Hr0].
    + unfold Located; cbn. lia.
    + destruct (Z.compare_spec (2 * r) D); unfold Located; cbn; lia.
  - unfold new_location_odd. destruct (Z.eqb_spec r 0) as [->|Hr0].
    + unfold Located; cbn. lia.
    + assert (Hodd : Z.odd D = true) by (rewrite <- Z.negb_even, Ev; reflexivity).
      apply Z.odd_spec in Hodd. destruct Hodd as [k Hk].
      destruct (Z.compare_spec (2 * r + 1) D); unfold Located; cbn; lia.
Qed.

Lemma quotient_digits (a b q r k : Z) :
  0 < b -> a = b * q + r -> 0 <= r < b -> 0 <= k ->
  2 ^ k * b <= a -> k < Zdigits2 q.
Proof.
  intros Hb Ha Hr Hk Hle. apply Zdigits2_gt; [exact Hk|]. nia.
Qed.

Lemma SFdiv_Q (x y : spec_float) :
  valid_binary x = true -> valid_binary y = true ->
  SFnonneg x = true -> SFnonneg y = true ->
  (0 < SFvalue y)%Q -> (SFvalue x / SFvalue y < 2 ^ 1000)%Q ->
  SFnonneg (SFdiv prec emax x y) = true /\
  (Qabs (SFvalue (SFdiv prec emax x y) - SFvalue x / SFvalue y)
   <= unitRoundoff * (SFvalue x / SFvalue y) + tiny)%Q.
Proof.
  intros Vx Vy Nx Ny Hy Hb.
  destruct y as [sy|sy| |[|] my ey]; try discriminate.
  destruct x as [sx|sx| |[|] mx ex]; try discriminate.
  - split; [reflexivity|]. apply Qabs_exact.
    + cbn [SFdiv]. change (SFvalue (S754_zero _)) with 0%Q.
      unfold Qdiv. ring.
    + change (SFvalue (S754_zero _)) with 0%Q. unfold Qdiv. lra.
  - cbn [SFdiv xorb]. rewrite !SFvalue_finite_false in *.
    destruct (valid_finite _ _ _ Vx) as (Hdx & Hex & Hcx & _).
    destruct (valid_finite _ _ _ Vy) as (Hdy & Hey & Hcy & _).
    unfold SFdiv_core_binary. cbn [Zdigits2].
    set (d1 := Z.pos (digits2_pos mx)) in *.
    set (d2 := Z.pos (digits2_pos my)) in *.
    assert (Hd1 : 1 <= d1) by (unfold d1; lia).
    assert (Hd2 : 1 <= d2) by (unfold d2; lia).
    rewrite fexp64.
    set (e' := Z.min (Z.max (d1 + ex - (d2 + ey) - 53) (-1074)) (ex - ey)).
    set (s := ex - ey - e').
    assert (Hs : 0 <= s) by (unfold s, e'; lia).
    set (m' := match s with Z.pos _ => Z.shiftl (Z.pos mx) s | 0 => Z.pos mx
               | Z.neg _ => 0 end).
    assert (Hm' : m' = Z.pos mx * 2 ^ s).
    { unfold m'. destruct s as [|p|p] eqn:Es.
      - rewrite Z.pow_0_r. lia.
      - rewrite Z.shiftl_mul_pow2 by lia. reflexivity.
      - lia. }
    pose proof (Z_div_mod m' (Z.pos my) ltac:(lia)) as Hdiv.
    destruct (Z.div_eucl m' (Z.pos my)) as [q r]. destruct Hdiv as [Hq Hr].
    assert (Hq0 : 0 <= q) by nia.
    assert (Hp2 : 0 < 2 ^ s) by (apply Z.pow_pos_nonneg; lia).
    apply (round_Q q e' (new_location (Z.pos my) r) m' (Z.pos my)); try lia.
    + apply new_location_Located; lia.
    + rewrite fexp64.
      destruct (Z_le_gt_dec e' (-1074)) as [Hlow|Hhigh]; [lia|].
      assert (Es : d1 + s - d2 = 53) by (unfold s, e' in *; lia).
      enough (52 < Zdigits2 q) by lia.
      apply (quotient_digits m' (Z.pos my) q r 52); try lia.
      pose proof (digits2_pos_bounds mx) as [Hmx _].
      pose proof (digits2_pos_bounds my) as [_ Hmy].
      fold d1 in Hmx. fold d2 in Hmy.
      rewrite Hm'.
      assert (E2 : 2 ^ (d1 - 1) * 2 ^ s = 2 ^ 52 * 2 ^ d2).
      { rewrite <- !Z.pow_add_r by lia. f_equal. lia. }
      assert (2 ^ (d1 - 1) * 2 ^ s <= Z.pos mx * 2 ^ s) by nia.
      assert (0 < 2 ^ 52) by reflexivity.
      nia.
    + rewrite Hm', inject_Z_mult, pow2_Z by lia.
      replace ex with (s + e' + ey) at 1 by (unfold s; lia).
      rewrite !pow2_add.
      pose proof (pow2_pos ey).
      assert (~ inject_Z (Z.pos my) == 0)%Q.
      { change 0%Q with (inject_Z 0). rewrite inject_Z_injective. lia. }
      field. split; lra.
    + exact Hb.
Qed.

(** ** The primitive operations *)

Lemma nonNegative_finite (x : float) : nonNegative x = true -> finite x = true.
Proof.
  unfold nonNegative, finite.
  destruct (Prim2SF x) as [s|s| |[|] m e]; cbn; congruence.
Qed.

Lemma nonNegative_Qvalue (x : float) : nonNegative x = true -> (0 <= Qvalue x)%Q.
Proof. intros H. exact (SFvalue_nonneg (Prim2SF x) H). Qed.

Lemma mul_Q (x y : float) :
  nonNegative x = true -> nonNegative y = true ->
  (Qvalue x * Qvalue y < 2 ^ 1000)%Q ->
  nonNegative (x * y) = true /\
  (Qabs (Qvalue (x * y) - Qvalue x * Qvalue y)
   <= unitRoundoff * (Qvalue x * Qvalue y) + tiny)%Q.
Proof.
  intros Hx Hy Hb.
  pose proof (SFmul_Q (Prim2SF x) (Prim2SF y) (Prim2SF_valid x)
                (Prim2SF_valid y) Hx Hy Hb) as H.
  change (nonNegative (x * y)) with (SFnonneg (Prim2SF (x * y))).
  change (Qvalue (x * y)) with (SFvalue (Prim2SF (x * y))).
  rewrite mul_spec. exact H.
Qed.

Lemma add_Q (x y : float) :
  nonNegative x = true -> nonNegative y = true ->
  (Qvalue x + Qvalue y < 2 ^ 1000)%Q ->
  nonNegative (x + y) = true /\
  (Qabs (Qvalue (x + y) - (Qvalue x + Qvalue y))
   <= unitRoundoff * (Qvalue x + Qvalue y) + tiny)%Q.
Proof.
  intros Hx Hy Hb.
  pose proof (SFadd_Q (Prim2SF x) (Prim2SF y) Hx Hy Hb) as H.
  change (nonNegative (x + y)) with (SFnonneg (Prim2SF (x + y))).
  change (Qvalue (x + y)) with (SFvalue (Prim2SF (x + y))).
  rewrite add_spec. exact H.
Qed.

Lemma div_Q (x y : float) :
  nonNegative x = true -> nonNegative y = true ->
  (0 < Qvalue y)%Q -> (Qvalue x / Qvalue y < 2 ^ 1000)%Q ->
  nonNegative (x / y) = true /\
  (Qabs (Qvalue (x / y) - Qvalue x / Qvalue y)
   <= unitRoundoff * (Qvalue x / Qvalue y) + tiny)%Q.
Proof.
  intros Hx Hy Hpos Hb.
  pose proof (SFdiv_Q (Prim2SF x) (Prim2SF y) (Prim2SF_valid x)
                (Prim2SF_valid y) Hx Hy Hpos Hb) as H.
  change (nonNegative (x / y)) with (SFnonneg (Prim2SF (x / y))).
  change (Qvalue (x / y)) with (SFvalue (Prim2SF (x / y))).
  rewrite div_spec. exact H.
Qed.

(** An integer below [2 ^ 53] is a JavaScript number, exactly. *)
Lemma Z2number_Q (z : Z) :
  0 <= z < 2 ^ 53 ->
  nonNegative (Z2number z) = true /\ (Qvalue (Z2number z) == inject_Z z)%Q.
Proof.
  intros Hz. destruct z as [|m|m]; [| |lia].
  - split; reflexivity.
  - destruct (binary_round_exact m (proj2 Hz)) as (V & N & E).
    unfold Z2number.
    change (nonNegative ?x) with (SFnonneg (Prim2SF x)).
    change (Qvalue ?x) with (SFvalue (Prim2SF x)).
    cbn [binary_normalize]. rewrite Prim2SF_SF2Prim by exact V.
    split; [exact N|exact E].
Qed.

(** The two constants, as numbers. *)
Lemma unitRoundoff_value : (unitRoundoff == 1 # 9007199254740992)%Q.
Proof. vm_compute. reflexivity. Qed.

Lemma tiny_small : (0 < tiny)%Q /\ (tiny <= 1 # 1000000000000000000000000000000)%Q.
Proof. split; [apply pow2_pos|vm_compute; discriminate]. Qed.

Lemma below_overflow (x : Q) : (x <= 1000000000000)%Q -> (x < 2 ^ 1000)%Q.
Proof.
  intros H. apply (Qle_lt_trans _ _ _ H). vm_compute. reflexivity.
Qed.

(** * Properties *)

(** ** Stock classification *)

Lemma isOutOfStock_spec p : isOutOfStock p = true <-> current_stock p = 0.
Proof. unfold isOutOfStock. apply Z.eqb_eq. Qed.

Lemma isLowStock_spec p :
  isLowStock p = true <-> 0 < current_stock p <= min_stock_level p.
Proof.
  unfold isLowStock. rewrite andb_true_iff, Z.leb_le, Z.gtb_gt. lia.
Qed.

Lemma isGoodStock_spec p :
  isGoodStock p = true <-> min_stock_level p < current_stock p.
Proof. unfold isGoodStock. rewrite Z.gtb_gt. lia. Qed.

Lemma getStockStatus_Out p : getStockStatus p = Out <-> current_stock p = 0.
Proof.
  unfold getStockStatus. destruct (Z.eqb_spec (current_stock p) 0) as [E|Hne].
  - tauto.
  - destruct (current_stock p <=? min_stock_level p); split;
      solve [discriminate | contradiction].
Qed.

Lemma getStockStatus_Low p :
  getStockStatus p = Low
  <-> current_stock p <> 0 /\ current_stock p <= min_stock_level p.
Proof.
  unfold getStockStatus. destruct (Z.eqb_spec (current_stock p) 0) as [E|Hne].
  - split; [discriminate|tauto].
  - destruct (Z.leb_spec (current_stock p) (min_stock_level p)); split;
      solve [discriminate | tauto | lia].
Qed.

Lemma getStockStatus_Good p :
  getStockStatus p = Good
  <-> current_stock p <> 0 /\ min_stock_level p < current_stock p.
Proof.
  unfold getStockStatus. destruct (Z.eqb_spec (current_stock p) 0) as [E|Hne].
  - split; [discriminate|tauto].
  - destruct (Z.leb_spec (current_stock p) (min_stock_level p)); split;
      solve [discriminate | tauto | lia].
Qed.

(** The low-stock test of the counts implies the low status. *)
Lemma isLowStock_Low p : isLowStock p = true -> getStockStatus p = Low.
Proof. rewrite isLowStock_spec, getStockStatus_Low. lia. Qed.

(** C1.  For a product whose current stock is not negative the status is
    out of stock exactly when the stock is 0, low stock exactly when
    [0 < current_stock <= min_stock_level], and in stock exactly in the
    remaining case, which is the case where the stock exceeds the minimum
    level.  The three conditions are pairwise exclusive and one of them
    always holds, so every such product has one status and only one; the
    out-of-stock and low-stock tests of the counts select the same
    products. *)
Theorem stock_classification_total_exclusive (p : Product) :
  0 <= current_stock p ->
  let out := current_stock p = 0 in
  let low := 0 < current_stock p <= min_stock_level p in
  let good := current_stock p <> 0 /\ min_stock_level p < current_stock p in
  (getStockStatus p = Out <-> out) /\
  (getStockStatus p = Low <-> low) /\
  (getStockStatus p = Good <-> good) /\
  (getStockStatus p = Good <-> ~ out /\ ~ low) /\
  (isOutOfStock p = true <-> getStockStatus p = Out) /\
  (isLowStock p = true <-> getStockStatus p = Low) /\
  (out \/ low \/ good) /\
  ~ (out /\ low) /\ ~ (out /\ good) /\ ~ (low /\ good).
Proof.
  intros Hs out low good. subst out low good.
  rewrite isOutOfStock_spec, isLowStock_spec.
  rewrite getStockStatus_Out, getStockStatus_Low, getStockStatus_Good.
  repeat split; lia.
Qed.

Lemma stock_classification_total_exclusive_witness :
  0 <= current_stock (stocked "2" "Tools" 5 15 40 8%float) /\
  getStockStatus (stocked "2" "Tools" 5 15 40 8%float) = Low.
Proof.
  assert (H : 0 <= current_stock (stocked "2" "Tools" 5 15 40 8%float))
    by (simpl; lia).
  split; [exact H|].
  destruct (stock_classification_total_exclusive _ H) as (_ & Hlow & _).
  apply Hlow. simpl. lia.
Defined.

(** The "Good Stock" test of the report is the bare comparison with the
    minimum level.  It selects the products in stock when the stock fields
    are in the data model's range. *)
Lemma isGoodStock_Good p :
  stockFieldsNonNegative p ->
  (isGoodStock p = true <-> getStockStatus p = Good).
Proof.
  intros [Hs Hm]. rewrite getStockStatus_Good, isGoodStock_spec. lia.
Qed.

(** Below that range the comparison also holds for a product that is out
    of stock, and a negative stock is shown as low while the counts leave it
    out. *)
Example tests_outside_the_range :
  let p := stocked "9" "Tools" 0 (-1) 40 8%float in
  let q := stocked "9" "Tools" (-1) 0 40 8%float in
  (isGoodStock p = true /\ isOutOfStock p = true /\ getStockStatus p = Out) /\
  (isLowStock q = false /\ getStockStatus q = Low).
Proof. repeat split. Qed.

(** The scenario of the three products of stock 25, 5 and 0. *)
Example stock_classification_scenario :
  map getStockStatus scenarioCatalog = [Good; Low; Out] /\
  map isLowStock scenarioCatalog = [false; true; false] /\
  map isOutOfStock scenarioCatalog = [false; false; true].
Proof. repeat split. Qed.

(** ** Restock suggestion *)

(** C2.  The suggestion of every product is
    [max (max (max_stock_level - current_stock) (min_stock_level - current_stock)) 10]
    and therefore at least 10, whatever the three stock fields are; so is
    the suggestion of every item [fetchRestockData] builds. *)
Theorem suggested_quantity_floor (p : Product) (rows : list Product) :
  Restock.suggestedQuantity (Restock.restockItem p)
  = Z.max (Z.max (max_stock_level p - current_stock p)
                 (min_stock_level p - current_stock p)) 10 /\
  10 <= Restock.suggestedQuantity (Restock.restockItem p) /\
  Forall (fun item => 10 <= Restock.suggestedQuantity item)
         (Restock.fetchRestockData rows).
Proof.
  split; [reflexivity|]. split.
  - simpl. lia.
  - unfold Restock.fetchRestockData. apply Forall_map, Forall_forall.
    intros q _. simpl. lia.
Qed.

Example suggested_quantity_scenarios :
  Restock.suggestedQuantity (Restock.restockItem (stocked "2" "Tools" 5 15 40 8%float)) = 35 /\
  Restock.suggestedQuantity (Restock.restockItem (stocked "7" "Tools" 8 10 12 8%float)) = 10.
Proof. split; reflexivity. Qed.

(** C5.  With the minimum and maximum levels fixed, a product with more
    stock never gets a larger suggestion; once the floor of 10 is reached
    the suggestion stays at 10. *)
Theorem suggested_quantity_antitone (p1 p2 : Product) :
  min_stock_level p1 = min_stock_level p2 ->
  max_stock_level p1 = max_stock_level p2 ->
  current_stock p1 <= current_stock p2 ->
  Restock.suggestedQuantity (Restock.restockItem p2)
  <= Restock.suggestedQuantity (Restock.restockItem p1) /\
  (Restock.rawQuantity p1 <= 10 ->
   Restock.suggestedQuantity (Restock.restockItem p2) = 10 /\
   Restock.suggestedQuantity (Restock.restockItem p1) = 10).
Proof.
  intros Hmin Hmax Hle. unfold Restock.restockItem, Restock.rawQuantity.
  simpl. rewrite Hmin, Hmax. lia.
Qed.

Lemma suggested_quantity_antitone_witness :
  Restock.suggestedQuantity (Restock.restockItem (stocked "2" "Tools" 9 15 40 8%float))
  <= Restock.suggestedQuantity (Restock.restockItem (stocked "2" "Tools" 5 15 40 8%float)).
Proof.
  apply (suggested_quantity_antitone
           (stocked "2" "Tools" 5 15 40 8%float)
           (stocked "2" "Tools" 9 15 40 8%float)); simpl; try reflexivity; lia.
Defined.

(** ** The editable restock quantity *)

Lemma updateQuantity_Forall productId quantity items :
  Forall (fun item =>
            String.eqb (id (Restock.product item)) productId = true ->
            Restock.actualQuantity item = Z.max 0 quantity)
         (Restock.updateQuantity productId quantity items).
Proof.
  unfold Restock.updateQuantity. apply Forall_map, Forall_forall.
  intros item _.
  destruct (String.eqb (id (Restock.product item)) productId) eqn:E; simpl;
    [reflexivity|].
  rewrite E. discriminate.
Qed.

Lemma updateQuantity_non_negative productId quantity items :
  Forall (fun item => 0 <= Restock.actualQuantity item) items ->
  Forall (fun item => 0 <= Restock.actualQuantity item)
         (Restock.updateQuantity productId quantity items).
Proof.
  intros H. unfold Restock.updateQuantity. apply Forall_map.
  eapply Forall_impl; [exact H|].
  intros item Hq. simpl in *. destruct (String.eqb _ _); simpl; lia.
Qed.

Lemma fetchRestockData_positive rows :
  Forall (fun item => 0 < Restock.actualQuantity item)
         (Restock.fetchRestockData rows).
Proof.
  unfold Restock.fetchRestockData. apply Forall_map, Forall_forall.
  intros p _. simpl. destruct (Restock.rawQuantity p >? 0) eqn:E; [|lia].
  apply Z.gtb_gt in E. lia.
Qed.

(** C9.  [updateQuantity] stores [max 0 quantity] in the items of the
    product it names, which is 0 for every request that is 0 or less (a
    decrement from 0 asks for -1), and leaves the other items as they are;
    so whatever calls are made on the items [fetchRestockData] built, no
    item ever holds a negative quantity. *)
Theorem actual_quantity_never_negative
    (rows : list Product) (calls : list (string * Z))
    (productId : string) (quantity : Z) (items : list Restock.RestockItem) :
  Forall (fun item => 0 <= Restock.actualQuantity item)
         (Restock.applyUpdates calls (Restock.fetchRestockData rows)) /\
  Forall (fun item =>
            id (Restock.product item) = productId ->
            Restock.actualQuantity item = Z.max 0 quantity /\
            0 <= Restock.actualQuantity item /\
            (quantity <= 0 -> Restock.actualQuantity item = 0))
         (Restock.updateQuantity productId quantity items) /\
  Forall2 (fun item item' =>
             Restock.product item' = Restock.product item /\
             (id (Restock.product item) <> productId -> item' = item))
          items (Restock.updateQuantity productId quantity items).
Proof.
  split; [|split].
  - unfold Restock.applyUpdates.
    assert (H : Forall (fun item => 0 <= Restock.actualQuantity item)
                       (Restock.fetchRestockData rows)).
    { eapply Forall_impl; [apply fetchRestockData_positive|].
      simpl. intros. lia. }
    revert H. generalize (Restock.fetchRestockData rows).
    induction calls as [|call calls IH]; intros l H; simpl; [exact H|].
    apply IH, updateQuantity_non_negative, H.
  - eapply Forall_impl; [apply updateQuantity_Forall|].
    intros item H Hid. simpl in *.
    rewrite H by (apply String.eqb_eq, Hid). lia.
  - unfold Restock.updateQuantity.
    induction items as [|item items IH]; simpl; constructor; [|exact IH].
    destruct (String.eqb _ _) eqn:E; simpl.
    + split; [reflexivity|]. apply String.eqb_eq in E. congruence.
    + split; reflexivity.
Qed.

(** A decrement requested at quantity 0 leaves the quantity at 0. *)
Example decrement_from_zero :
  let item := Restock.mkItem (stocked "2" "Tools" 5 15 40 8%float) 35 0 in
  map Restock.actualQuantity
      (Restock.updateQuantity "2" (Restock.actualQuantity item - 1) [item])
  = [0].
Proof. reflexivity. Qed.

(** ** The low-stock alert list *)

Lemma filter_sublist_of {A} (f : A -> bool) (l : list A) :
  sublist (List.filter f l) l.
Proof.
  induction l as [|x l IH]; simpl; [constructor|].
  destruct (f x); [apply sublist_skip|apply sublist_cons]; exact IH.
Qed.

(** C7.  The alert list holds only low-stock products
    ([0 < current_stock <= min_stock_level], shown with the low status), at
    most 5 of them, in the order of the snapshot; it is the beginning of
    the low-stock products of the snapshot taken in order, and those that
    follow it are left out only when the list is full. *)
Theorem low_stock_alert_list (products : list Product) :
  let alerts := Dashboard.lowStockProducts products in
  Forall (fun p => 0 < current_stock p <= min_stock_level p /\
                   getStockStatus p = Low) alerts /\
  (length alerts <= 5)%nat /\
  sublist alerts products /\
  exists rest,
    List.filter (fun p => (0 <? current_stock p)
                          && (current_stock p <=? min_stock_level p))
                products = alerts ++ rest /\
    (rest <> [] -> length alerts = 5%nat).
Proof.
  unfold Dashboard.lowStockProducts. cbv zeta.
  assert (Hf : List.filter
                 (fun p => (0 <? current_stock p)
                           && (current_stock p <=? min_stock_level p))
                 products = List.filter isLowStock products).
  { apply List.filter_ext. intros p. unfold isLowStock.
    rewrite Z.gtb_ltb. apply andb_comm. }
  rewrite Hf. set (low := List.filter isLowStock products).
  repeat split.
  - apply Forall_take, Forall_forall. intros p Hp.
    apply list_elem_of_In, List.filter_In in Hp. destruct Hp as [_ Hp].
    split; [apply isLowStock_spec, Hp|apply isLowStock_Low, Hp].
  - rewrite length_take. lia.
  - transitivity low; [apply sublist_take|apply filter_sublist_of].
  - exists (drop 5 low). split; [symmetry; apply take_drop|].
    intros Hne. rewrite length_take.
    destruct (Nat.le_gt_cases 5 (length low)) as [|Hlt]; [lia|].
    exfalso. apply Hne, drop_ge. lia.
Qed.

Example low_stock_alert_default now :
  map id (Dashboard.lowStockProducts (ProductService.defaultProducts now))
  = ["2"; "4"].
Proof. reflexivity. Qed.

(** ** The catalog store: delete *)

Section Store.

Import ProductService.

Variable i : string.

Lemma filter_keeps_all (products : list Product) :
  (forall p, In p products -> id p <> i) ->
  List.filter (otherId i) products = products.
Proof.
  intros H. induction products as [|p l IH]; simpl; [reflexivity|].
  unfold otherId at 1. destruct (String.eqb_spec (id p) i) as [E|_]; simpl.
  - exfalso. apply (H p); [left; reflexivity|exact E].
  - f_equal. apply IH. intros q Hq. apply H. right. exact Hq.
Qed.

Lemma filter_keeps_shorter (products : list Product) :
  (exists p, In p products /\ id p = i) ->
  (length (List.filter (otherId i) products) < length products)%nat.
Proof.
  intros (p & Hin & Hid).
  induction products as [|q l IH]; simpl; [destruct Hin|].
  pose proof (List.filter_length_le (otherId i) l) as Hle.
  unfold otherId at 1. destruct (String.eqb_spec (id q) i) as [_|Hne]; simpl.
  - lia.
  - destruct Hin as [->|Hin]; [contradiction|]. specialize (IH Hin). lia.
Qed.

Lemma id_dec_in (products : list Product) :
  (exists p, In p products /\ id p = i) \/
  (forall p, In p products -> id p <> i).
Proof.
  induction products as [|q l [(p & Hin & Hid)|IH]].
  - right. intros p [].
  - left. exists p. split; [right; exact Hin|exact Hid].
  - destruct (String.eqb_spec (id q) i) as [E|Hne].
    + left. exists q. split; [left; reflexivity|exact E].
    + right. intros p [<-|Hin]; [exact Hne|apply IH, Hin].
Qed.

Lemma findIndex_None (products : list Product) :
  findIndex (sameId i) products = None <-> (forall p, In p products -> id p <> i).
Proof.
  induction products as [|q l IH]; simpl.
  - split; [intros _ p []|reflexivity].
  - unfold sameId at 1. destruct (String.eqb_spec (id q) i) as [E|Hne].
    + split; [discriminate|]. intros H. exfalso. apply (H q); [left; reflexivity|exact E].
    + destruct (findIndex (sameId i) l) eqn:F; simpl.
      * split; [discriminate|]. intros H.
        destruct IH as [_ IH]. discriminate IH. intros p Hp. apply H. right. exact Hp.
      * split; [|reflexivity]. intros _ p [<-|Hp]; [exact Hne|].
        destruct IH as [IH _]. apply IH; [reflexivity|exact Hp].
Qed.

Lemma findIndex_Some (products : list Product) (index : nat) :
  findIndex (sameId i) products = Some index ->
  exists old, products !! index = Some old /\ id old = i /\
    forall j p, (j < index)%nat -> products !! j = Some p -> id p <> i.
Proof.
  revert index. induction products as [|q l IH]; simpl; intros index; [discriminate|].
  unfold sameId at 1. destruct (String.eqb_spec (id q) i) as [E|Hne].
  - intros [= <-]. exists q. repeat split; [exact E|]. intros j p Hj. lia.
  - destruct (findIndex (sameId i) l) as [n|] eqn:F; simpl; [|discriminate].
    intros [= <-]. destruct (IH n eq_refl) as (old & Hl & Hid & Hfirst).
    exists old. repeat split; [exact Hl|exact Hid|].
    intros [|j] p Hj; simpl.
    + intros [= <-]. exact Hne.
    + apply Hfirst. lia.
Qed.

(** C8.  [delete] of an id no record carries returns [false] and leaves the
    storage, hence the catalog, its size and its records, as it was; it
    returns [true] exactly when some record carries the id, and the catalog
    is then the former one without the records of that id, the others kept
    in their order. *)
Theorem delete_reports_removal (st : Storage) :
  ((forall p, In p (getAll st) -> id p <> i) ->
   delete i st = (false, st) /\
   getAll (snd (delete i st)) = getAll st /\
   length (getAll (snd (delete i st))) = length (getAll st)) /\
  (fst (delete i st) = true <-> exists p, In p (getAll st) /\ id p = i) /\
  (fst (delete i st) = true ->
   getAll (snd (delete i st))
   = List.filter (otherId i) (getAll st) /\
   (forall p, In p (getAll (snd (delete i st))) <->
              In p (getAll st) /\ id p <> i) /\
   sublist (getAll (snd (delete i st))) (getAll st) /\
   (length (getAll (snd (delete i st))) < length (getAll st))%nat).
Proof.
  unfold delete.
  destruct (id_dec_in (getAll st)) as [Hex|Hno].
  - pose proof (filter_keeps_shorter _ Hex) as Hlt.
    destruct (Nat.eqb_spec (length (List.filter (otherId i) (getAll st)))
                           (length (getAll st))) as [E|_]; [lia|]. simpl.
    split; [|split].
    + intros H. destruct Hex as (p & Hin & Hid). destruct (H p Hin Hid).
    + split; [intros _; exact Hex|reflexivity].
    + intros _. repeat split.
      * apply List.filter_In in H. tauto.
      * apply List.filter_In in H. destruct H as [_ H].
        unfold otherId in H. destruct (String.eqb_spec (id p) i); [discriminate|assumption].
      * intros [Hin Hne]. apply List.filter_In. split; [exact Hin|].
        unfold otherId. destruct (String.eqb_spec (id p) i); [contradiction|reflexivity].
      * apply filter_sublist_of.
      * exact Hlt.
  - rewrite (filter_keeps_all _ Hno), Nat.eqb_refl. simpl.
    split; [|split].
    + intros _. repeat split.
    + split; [discriminate|]. intros (p & Hin & Hid). destruct (Hno p Hin Hid).
    + discriminate.
Qed.

Example delete_default now :
  let st := initializeData now (mkStorage None) in
  fst (delete "9" st) = false /\ snd (delete "9" st) = st /\
  fst (delete "3" st) = true /\
  map id (getAll (snd (delete "3" st))) = ["1"; "2"; "4"; "5"].
Proof. repeat split. Qed.

(** ** The catalog store: update *)

(** C10.  When no record carries the id, [update] returns [null] and the
    storage is unchanged.  When one does, the first such record, [old] at
    position [index], is replaced in place by [old] overlaid with the patch
    and stamped with the current time: every field the patch names takes
    the patch's value, every other field but [updated_at] keeps the value
    it has in [old], and [updated_at] is the current time even when the
    patch names it.  That record is returned, the catalog keeps its length,
    and every other position holds the record it held. *)
Theorem update_touches_one_record
    (now : string) (updates : PartialProduct) (st : Storage) :
  ((forall p, In p (getAll st) -> id p <> i) ->
   update now i updates st = (None, st)) /\
  ((exists p, In p (getAll st) /\ id p = i) ->
   exists index old,
     getAll st !! index = Some old /\ id old = i /\
     (forall j p, (j < index)%nat -> getAll st !! j = Some p -> id p <> i) /\
     let new := merge old updates now in
     let products' := getAll (snd (update now i updates st)) in
     fst (update now i updates st) = Some new /\
     updated_at new = now /\
     (id new = match p_id updates with Some v => v | None => id old end /\
      name new = match p_name updates with Some v => v | None => name old end /\
      description new
      = match p_description updates with Some v => v | None => description old end /\
      category new
      = match p_category updates with Some v => v | None => category old end /\
      brand new = match p_brand updates with Some v => v | None => brand old end /\
      sku new = match p_sku updates with Some v => v | None => sku old end /\
      barcode new
      = match p_barcode updates with Some v => v | None => barcode old end /\
      current_stock new
      = match p_current_stock updates with
        | Some v => v | None => current_stock old end /\
      min_stock_level new
      = match p_min_stock_level updates with
        | Some v => v | None => min_stock_level old end /\
      max_stock_level new
      = match p_max_stock_level updates with
        | Some v => v | None => max_stock_level old end /\
      cost_price new
      = match p_cost_price updates with Some v => v | None => cost_price old end /\
      selling_price new
      = match p_selling_price updates with
        | Some v => v | None => selling_price old end /\
      supplier new
      = match p_supplier updates with Some v => v | None => supplier old end /\
      location new
      = match p_location updates with Some v => v | None => location old end /\
      created_at new
      = match p_created_at updates with
        | Some v => v | None => created_at old end) /\
     products' = <[index := new]> (getAll st) /\
     products' !! index = Some new /\
     length products' = length (getAll st) /\
     (forall j, j <> index -> products' !! j = getAll st !! j) /\
     take index products' = take index (getAll st) /\
     drop (S index) products' = drop (S index) (getAll st)).
Proof.
  unfold update. split.
  - intros Hno. apply findIndex_None in Hno. rewrite Hno. reflexivity.
  - intros Hex. destruct (findIndex (sameId i) (getAll st)) as [index|] eqn:F.
    + destruct (findIndex_Some _ _ F) as (old & Hl & Hid & Hfirst).
      exists index, old. rewrite Hl. cbv zeta. simpl.
      pose proof (lookup_lt_Some _ _ _ Hl) as Hlt.
      repeat split; try assumption; try reflexivity.
      * apply list_lookup_insert_eq. exact Hlt.
      * apply list_lookup_insert_eq. exact Hlt.
      * apply length_insert.
      * intros j Hj. apply list_lookup_insert_ne. congruence.
      * apply take_insert_ge. lia.
      * apply drop_insert_lt. lia.
    + exfalso. destruct Hex as (p & Hin & Hid).
      apply (proj1 (findIndex_None _) F p Hin Hid).
Qed.

End Store.

(** The fields a patch does not name keep their values. *)
Lemma merge_emptyPatch (old : Product) (now : string) :
  ProductService.merge old emptyPatch now
  = mkProduct (id old) (name old) (description old) (category old) (brand old)
      (sku old) (barcode old) (current_stock old) (min_stock_level old)
      (max_stock_level old) (cost_price old) (selling_price old)
      (supplier old) (location old) (created_at old) now.
Proof. reflexivity. Qed.

(** The restock commit of the scenario: stock 5 plus 35. *)
Example update_restock now later :
  let st := ProductService.initializeData now (ProductService.mkStorage None) in
  let patch := mkPartial None None None None None None None (Some (5 + 35))
                 None None None None None None None None in
  let r := ProductService.update later "2" patch st in
  option_map current_stock (fst r) = Some 40 /\
  option_map updated_at (fst r) = Some later /\
  map id (ProductService.getAll (snd r)) = ["1"; "2"; "3"; "4"; "5"] /\
  map current_stock (ProductService.getAll (snd r)) = [25; 40; 0; 8; 35].
Proof. repeat split. Qed.

(** ** Stock-level distribution *)

Section StockLevels.

Import Reports.

Lemma filter_length_cons {A} (f : A -> bool) (x : A) (l : list A) :
  length (List.filter f (x :: l))
  = ((if f x then 1 else 0) + length (List.filter f l))%nat.
Proof. simpl. destruct (f x); reflexivity. Qed.

(** Products in the data model's range fall in one bucket each. *)
Lemma bucket_counts_sum (products : list Product) :
  Forall stockFieldsNonNegative products ->
  (goodStock products + lowStockCount products + outOfStockCount products
   = length products)%nat.
Proof.
  unfold goodStock, lowStockCount, outOfStockCount.
  induction 1 as [|p l [Hs Hm] _ IH]; [reflexivity|].
  rewrite !filter_length_cons. simpl length.
  pose proof (isGoodStock_spec p) as Hg.
  pose proof (isLowStock_spec p) as Hl.
  pose proof (isOutOfStock_spec p) as Ho.
  destruct (isGoodStock p), (isLowStock p), (isOutOfStock p); try lia;
    exfalso;
    repeat match goal with
           | H : true = true <-> _ |- _ => destruct H as [H _]; specialize (H eq_refl)
           | H : false = true <-> _ |- _ => destruct H as [_ H]
           end; try lia;
    try (assert (false = true) by (first [apply Hg|apply Hl|apply Ho]; lia);
         discriminate).
Qed.

Lemma filter_length_at_most {A} (f : A -> bool) (l : list A) :
  (length (List.filter f l) <= length l)%nat.
Proof.
  induction l as [|x l IH]; [reflexivity|].
  rewrite filter_length_cons. simpl length. destruct (f x); lia.
Qed.

Lemma inject_Z_of_nat_pos (n : nat) :
  (0 < n)%nat -> (0 < inject_Z (Z.of_nat n))%Q.
Proof.
  intros H. change 0%Q with (inject_Z 0). rewrite <- Zlt_Qlt. lia.
Qed.

(** The exact percentages of three counts that make up the total. *)
Lemma exact_percent_sum (g l o total : nat) :
  (0 < total)%nat -> (g + l + o = total)%nat ->
  (100 * inject_Z (Z.of_nat g) / inject_Z (Z.of_nat total)
   + 100 * inject_Z (Z.of_nat l) / inject_Z (Z.of_nat total)
   + 100 * inject_Z (Z.of_nat o) / inject_Z (Z.of_nat total) == 100)%Q.
Proof.
  intros Hpos <-. pose proof (inject_Z_of_nat_pos _ Hpos) as H.
  rewrite !Nat2Z.inj_add, !inject_Z_plus in *. field. lra.
Qed.

(** The percentage the program computes for [n] out of [total]: the
    division and the multiplication round, each by at most one unit
    roundoff of its result. *)
Lemma percent_Q (n total : nat) :
  (n <= total)%nat -> (0 < total)%nat -> Z.of_nat total < 2 ^ 53 ->
  nonNegative (percent n total) = true /\
  (Qabs (Qvalue (percent n total)
         - 100 * inject_Z (Z.of_nat n) / inject_Z (Z.of_nat total))
   <= 1 # 10000000000000)%Q.
Proof.
  intros Hle Hpos Hbig. unfold percent.
  destruct (Z2number_Q (Z.of_nat n) ltac:(lia)) as [Hnn Hnv].
  destruct (Z2number_Q (Z.of_nat total) ltac:(lia)) as [Htn Htv].
  pose proof (inject_Z_of_nat_pos _ Hpos) as Ht.
  assert (Hn0 : (0 <= inject_Z (Z.of_nat n))%Q).
  { change 0%Q with (inject_Z 0). rewrite <- Zle_Qle. lia. }
  assert (Hnt : (inject_Z (Z.of_nat n) <= inject_Z (Z.of_nat total))%Q).
  { rewrite <- Zle_Qle. lia. }
  set (ratio := (inject_Z (Z.of_nat n) / inject_Z (Z.of_nat total))%Q).
  assert (Hr0 : (0 <= ratio)%Q).
  { unfold ratio. apply Qle_shift_div_l; [exact Ht|lra]. }
  assert (Hr1 : (ratio <= 1)%Q).
  { unfold ratio. apply Qle_shift_div_r; [exact Ht|lra]. }
  assert (Hq : (Qvalue (Z2number (Z.of_nat n)) / Qvalue (Z2number (Z.of_nat total))
                == ratio)%Q).
  { unfold ratio. rewrite Hnv, Htv. reflexivity. }
  destruct tiny_small as [Hy0 Hy].
  destruct (div_Q (Z2number (Z.of_nat n)) (Z2number (Z.of_nat total)) Hnn Htn)
    as [Hdn Hd].
  { rewrite Htv. exact Ht. }
  { rewrite Hq. apply below_overflow. lra. }
  rewrite Hq in Hd.
  set (q := (Z2number (Z.of_nat n) / Z2number (Z.of_nat total))%float) in *.
  assert (H100 : (Qvalue 100%float == 100)%Q) by reflexivity.
  pose proof Hd as Hd'. apply Qabs_Qle_condition in Hd'.
  rewrite unitRoundoff_value in Hd'.
  destruct (mul_Q q 100%float Hdn eq_refl) as [Hmn Hm].
  { rewrite H100. apply below_overflow. lra. }
  split; [exact Hmn|].
  rewrite H100 in Hm. apply Qabs_Qle_condition in Hm.
  rewrite unitRoundoff_value in Hm.
  assert (E : (100 * inject_Z (Z.of_nat n) / inject_Z (Z.of_nat total)
               == 100 * ratio)%Q).
  { unfold ratio. field. lra. }
  rewrite E. apply Qabs_Qle_condition. lra.
Qed.

(** C4, as the program has it.  For an empty catalog [stockLevels] is the
    empty list.  For a catalog that is not empty (an array has fewer than
    [2 ^ 32] elements, here fewer than [2 ^ 53]) it lists the good, low and
    out buckets in this order; the percentage of each is the binary64
    result of [(count / total_products) * 100], a finite number within
    [10^-13] of [100 * count / total_products]; and when the stock fields
    are in the data model's range the three counts add up to the number of
    products and the three percentages to 100 within [3 * 10^-13]. *)
Theorem stock_levels_distribution (products : list Product) :
  (length products = 0%nat -> stockLevels products = []) /\
  ((0 < length products)%nat -> Z.of_nat (length products) < 2 ^ 53 ->
   exists good low out,
     stockLevels products = [good; low; out] /\
     (level good, level low, level out)
     = ("Good Stock", "Low Stock", "Out of Stock") /\
     count good = length (List.filter isGoodStock products) /\
     count low = length (List.filter isLowStock products) /\
     count out = length (List.filter isOutOfStock products) /\
     Forall (fun b =>
               percentage b
               = (Z2number (Z.of_nat (count b))
                  / Z2number (Z.of_nat (length products)) * 100)%float /\
               finite (percentage b) = true /\
               (Qabs (Qvalue (percentage b)
                      - 100 * inject_Z (Z.of_nat (count b))
                        / inject_Z (Z.of_nat (length products)))
                <= 1 # 10000000000000)%Q)
            [good; low; out] /\
     (Forall stockFieldsNonNegative products ->
      (count good + count low + count out = length products)%nat /\
      (Qabs (Qvalue (percentage good) + Qvalue (percentage low)
             + Qvalue (percentage out) - 100)
       <= 3 # 10000000000000)%Q)).
Proof.
  unfold stockLevels. split.
  - intros ->. reflexivity.
  - intros Hpos Hbig.
    destruct (Nat.ltb_spec 0 (length products)) as [_|]; [|lia].
    pose proof (percent_Q (goodStock products) (length products)
                  (filter_length_at_most _ _) Hpos Hbig) as [Hgn Hg].
    pose proof (percent_Q (lowStockCount products) (length products)
                  (filter_length_at_most _ _) Hpos Hbig) as [Hln Hl].
    pose proof (percent_Q (outOfStockCount products) (length products)
                  (filter_length_at_most _ _) Hpos Hbig) as [Hon Ho].
    eexists _, _, _. split; [reflexivity|]. cbn [level count percentage].
    split; [reflexivity|]. do 3 (split; [reflexivity|]). split.
    + repeat constructor; cbn [count percentage];
        try (apply nonNegative_finite); assumption.
    + intros Hall. pose proof (bucket_counts_sum products Hall) as Hsum.
      split; [exact Hsum|].
      pose proof (exact_percent_sum _ _ _ _ Hpos Hsum) as Hex.
      apply Qabs_Qle_condition in Hg, Hl, Ho. apply Qabs_Qle_condition.
      lra.
Qed.

(** C4, as stated, fails on the empty catalog, for which no bucket is
    reported; and the percentages of a catalog that is not empty need not
    add up to 100 when a stock is negative, since such a product is counted
    in no bucket. *)
Lemma stock_levels_empty_catalog :
  length (@nil Product) = 0%nat /\
  stockLevels [] = [] /\
  ~ threeZeroBuckets (stockLevels []) /\
  (0 < length [stocked "9" "Tools" (-1) 0 40 8%float])%nat /\
  map percentage (stockLevels [stocked "9" "Tools" (-1) 0 40 8%float])
  = [0%float; 0%float; 0%float] /\
  (fold_right Qplus 0
     (map (fun b => Qvalue (percentage b))
          (stockLevels [stocked "9" "Tools" (-1) 0 40 8%float]))
   == 0)%Q.
Proof.
  split; [reflexivity|]. split; [reflexivity|]. split.
  - intros (g & l & o & H & _). discriminate H.
  - split; [simpl; lia|]. split; reflexivity.
Qed.

(** The theorem on the scenario catalog: one product in each bucket. *)
Lemma stock_levels_scenario :
  (0 < length scenarioCatalog)%nat /\
  Z.of_nat (length scenarioCatalog) < 2 ^ 53 /\
  exists good low out,
    stockLevels scenarioCatalog = [good; low; out] /\
    (count good + count low + count out = length scenarioCatalog)%nat /\
    (Qabs (Qvalue (percentage good) + Qvalue (percentage low)
           + Qvalue (percentage out) - 100)
     <= 3 # 10000000000000)%Q.
Proof.
  assert (Hpos : (0 < length scenarioCatalog)%nat) by (simpl; lia).
  assert (Hbig : Z.of_nat (length scenarioCatalog) < 2 ^ 53) by reflexivity.
  split; [exact Hpos|]. split; [exact Hbig|].
  destruct (proj2 (stock_levels_distribution scenarioCatalog) Hpos Hbig)
    as (good & low & out & E & _ & _ & _ & _ & _ & Hsum).
  exists good, low, out. split; [exact E|].
  apply Hsum. repeat constructor; simpl; lia.
Defined.

(** The default catalog: two good, two low, one out of five. *)
Example stock_levels_default now :
  map (fun b => (level b, count b, percentage b))
      (stockLevels (ProductService.defaultProducts now))
  = [ ("Good Stock", 2%nat, 40%float);
      ("Low Stock", 2%nat, 40%float);
      ("Out of Stock", 1%nat, 20%float) ].
Proof. reflexivity. Qed.

(** A percentage that is not the exact quotient: 7 out of 25 is shown as
    28.000000000000004. *)
#[warnings="-inexact-float"]
Example percent_rounds :
  percent 7 25 = 28.000000000000004%float /\
  ~ (Qvalue (percent 7 25) == 28)%Q /\
  (Qabs (Qvalue (percent 7 25) - 28) <= 1 # 10000000000000)%Q.
Proof.
  split; [reflexivity|]. split.
  - intros H. apply Qeq_eq_bool in H. vm_compute in H. discriminate H.
  - vm_compute. discriminate.
Qed.

End StockLevels.

(** ** Category breakdown *)

Section CategoryBreakdown.

Import Reports.

(** *** The order of first appearance *)

Lemma existsb_eqb_In (k : string) (l : list string) :
  existsb (String.eqb k) l = true <-> In k l.
Proof.
  rewrite existsb_exists. split.
  - intros (x & Hin & E). apply String.eqb_eq in E. subst. exact Hin.
  - intros Hin. exists k. split; [exact Hin|apply String.eqb_refl].
Qed.

Lemma firstSeen_snoc_fold (l : list string) (c : string) :
  firstSeen (l ++ [c])
  = if existsb (String.eqb c) (firstSeen l) then firstSeen l
    else firstSeen l ++ [c].
Proof. unfold firstSeen. rewrite fold_left_app. reflexivity. Qed.

Lemma firstSeen_In (l : list string) (c : string) :
  In c (firstSeen l) <-> In c l.
Proof.
  induction l as [|x l IH] using rev_ind; [reflexivity|].
  rewrite firstSeen_snoc_fold, in_app_iff. simpl.
  destruct (existsb (String.eqb x) (firstSeen l)) eqn:E.
  - split; [intros H; left; apply IH, H|].
    intros [H|[<-|[]]]; [apply IH, H|apply existsb_eqb_In, E].
  - rewrite in_app_iff, IH. simpl. tauto.
Qed.

(** A category joins the list, at its end, when it is met for the first
    time. *)
Lemma firstSeen_snoc (l : list string) (c : string) :
  (In c l -> firstSeen (l ++ [c]) = firstSeen l) /\
  (~ In c l -> firstSeen (l ++ [c]) = firstSeen l ++ [c]).
Proof.
  rewrite firstSeen_snoc_fold.
  destruct (existsb (String.eqb c) (firstSeen l)) eqn:E.
  - split; [reflexivity|]. intros Hn. exfalso.
    apply Hn, firstSeen_In, existsb_eqb_In, E.
  - split; [|reflexivity]. intros Hin%firstSeen_In%existsb_eqb_In. congruence.
Qed.

(** *** The map *)

Lemma map_set_keys (k : string) (v : CategoryData) (m : JSMap) :
  map fst (map_set k v m)
  = if existsb (String.eqb k) (map fst m) then map fst m else map fst m ++ [k].
Proof.
  induction m as [|[k' v'] m IH]; simpl; [reflexivity|].
  rewrite (String.eqb_sym k k').
  destruct (String.eqb k' k); simpl; [reflexivity|].
  rewrite IH. destruct (existsb _ _); reflexivity.
Qed.

Lemma map_get_None (k : string) (m : JSMap) :
  map_get k m = None <-> ~ In k (map fst m).
Proof.
  induction m as [|[k' v'] m IH]; simpl; [tauto|].
  destruct (String.eqb_spec k' k) as [->|Hne].
  - split; [discriminate|]. tauto.
  - rewrite IH. tauto.
Qed.

Lemma map_get_Some (k : string) (d : CategoryData) (m : JSMap) :
  map_get k m = Some d -> In (k, d) m.
Proof.
  induction m as [|[k' v'] m IH]; simpl; [discriminate|].
  destruct (String.eqb_spec k' k) as [->|Hne].
  - intros [= ->]. left. reflexivity.
  - intros H. right. apply IH, H.
Qed.

Lemma map_set_NoDup (k : string) (v : CategoryData) (m : JSMap) :
  NoDup (map fst m) -> NoDup (map fst (map_set k v m)).
Proof.
  intros Hnd. rewrite map_set_keys.
  destruct (existsb (String.eqb k) (map fst m)) eqn:E; [exact Hnd|].
  apply NoDup_app. repeat split.
  - exact Hnd.
  - intros x Hx ->%list_elem_of_singleton.
    apply list_elem_of_In, existsb_eqb_In in Hx. congruence.
  - apply NoDup_singleton.
Qed.

(** On a map without repeated keys, [set] leaves the entries of the other
    keys as they are and holds the new value under [k]. *)
Lemma map_set_Forall (Q Q' : string * CategoryData -> Prop)
    (k : string) (v : CategoryData) (m : JSMap) :
  NoDup (map fst m) ->
  Forall Q m ->
  (forall e, Q e -> fst e <> k -> Q' e) ->
  Q' (k, v) ->
  Forall Q' (map_set k v m).
Proof.
  intros Hnd HQ Hother Hnew.
  induction m as [|[k' v'] m IH]; simpl.
  - repeat constructor. exact Hnew.
  - inversion Hnd as [|? ? Hnotin Hnd']; subst.
    inversion HQ as [|? ? Hhead Htail]; subst.
    destruct (String.eqb_spec k' k) as [->|Hne].
    + constructor; [exact Hnew|].
      apply Forall_forall. intros e He%list_elem_of_In.
      apply Hother.
      * rewrite Forall_forall in Htail. apply Htail, list_elem_of_In, He.
      * intros <-. apply Hnotin, list_elem_of_In, in_map, He.
    + constructor; [apply Hother; [exact Hhead|exact Hne]|].
      apply IH; assumption.
Qed.

Lemma categoryMap_snoc (products : list Product) (p : Product) :
  categoryMap (products ++ [p]) = addProduct (categoryMap products) p.
Proof. unfold categoryMap. rewrite fold_left_app. reflexivity. Qed.

Lemma countIn_snoc (c : string) (products : list Product) (p : Product) :
  countIn c (products ++ [p])
  = countIn c products + (if String.eqb (category p) c then 1 else 0).
Proof.
  unfold countIn. rewrite List.filter_app, length_app. simpl.
  destruct (String.eqb (category p) c); simpl; lia.
Qed.

Lemma countIn_nonneg (c : string) (products : list Product) :
  0 <= countIn c products.
Proof. unfold countIn. lia. Qed.

Lemma grouped_addProduct (m : JSMap) (products : list Product) (p : Product) :
  grouped m products -> grouped (addProduct m p) (products ++ [p]).
Proof.
  intros (Hnd & Hcount & Hout). unfold addProduct.
  set (k := category p).
  assert (Hexisting :
            d_count (match map_get k m with
                     | Some data => data
                     | None => {| d_count := 0; d_value := 0%float |}
                     end) = countIn k products).
  { destruct (map_get k m) as [d|] eqn:G.
    - apply map_get_Some in G. rewrite Forall_forall in Hcount.
      apply (Hcount (k, d)), list_elem_of_In, G.
    - simpl. symmetry. apply Hout, map_get_None, G. }
  split; [|split].
  - apply map_set_NoDup, Hnd.
  - eapply map_set_Forall; [exact Hnd|exact Hcount| |].
    + intros e [He Hpos] Hne. simpl. rewrite countIn_snoc.
      fold k. destruct (String.eqb_spec k (fst e)) as [E|_];
        [symmetry in E; contradiction|]. split; lia.
    + simpl. rewrite countIn_snoc. fold k. rewrite String.eqb_refl, Hexisting.
      pose proof (countIn_nonneg k products). split; lia.
  - intros c Hc. rewrite map_set_keys in Hc.
    assert (Hk : c <> k /\ ~ In c (map fst m)).
    { destruct (existsb (String.eqb k) (map fst m)) eqn:E.
      - split; [|exact Hc]. intros ->. apply Hc, existsb_eqb_In, E.
      - split; intros H; apply Hc, in_or_app; [right; left; congruence|left; exact H]. }
    destruct Hk as [Hne Hnotin]. rewrite countIn_snoc. fold k.
    destruct (String.eqb_spec k c) as [E|_]; [symmetry in E; contradiction|].
    rewrite (Hout c Hnotin). reflexivity.
Qed.

Lemma categoryMap_grouped (products : list Product) :
  grouped (categoryMap products) products.
Proof.
  induction products as [|p products IH] using rev_ind.
  - repeat split; [constructor|constructor].
  - rewrite categoryMap_snoc. apply grouped_addProduct, IH.
Qed.

Lemma fold_addProduct_keys (products : list Product) (m : JSMap) :
  map fst (fold_left addProduct products m)
  = fold_left (fun seen c => if existsb (String.eqb c) seen then seen else seen ++ [c])
              (map category products) (map fst m).
Proof.
  revert m. induction products as [|p products IH]; intros m; simpl; [reflexivity|].
  rewrite IH. f_equal. unfold addProduct. apply map_set_keys.
Qed.

Lemma categoryMap_keys (products : list Product) :
  map fst (categoryMap products) = firstSeen (map category products).
Proof. apply fold_addProduct_keys. Qed.

Lemma countIn_positive (c : string) (products : list Product) :
  0 < countIn c products <-> exists p, In p products /\ category p = c.
Proof.
  unfold countIn. split.
  - intros H.
    destruct (List.filter (fun p => String.eqb (category p) c) products)
      as [|p l] eqn:F; [simpl in H; lia|].
    assert (Hin : In p (List.filter (fun p => String.eqb (category p) c) products))
      by (rewrite F; left; reflexivity).
    apply List.filter_In in Hin. destruct Hin as [Hin E].
    exists p. split; [exact Hin|apply String.eqb_eq, E].
  - intros (p & Hin & E).
    assert (Hf : In p (List.filter (fun p => String.eqb (category p) c) products)).
    { apply List.filter_In. split; [exact Hin|apply String.eqb_eq, E]. }
    destruct (List.filter _ products); [destruct Hf|simpl; lia].
Qed.

(** *** The total of the counts *)

Lemma entriesTotal_addProduct (m : JSMap) (p : Product) :
  entriesTotal (addProduct m p) = entriesTotal m + 1.
Proof.
  unfold addProduct. generalize (lineValue p) as v. generalize (category p) as k.
  intros k v. induction m as [|[k' d'] m IH]; simpl; [lia|].
  destruct (String.eqb k' k); simpl; lia.
Qed.

Lemma entriesTotal_categoryMap (products : list Product) :
  entriesTotal (categoryMap products) = Z.of_nat (length products).
Proof.
  induction products as [|p products IH] using rev_ind; [reflexivity|].
  rewrite categoryMap_snoc, entriesTotal_addProduct, IH, length_app. simpl. lia.
Qed.

Lemma sumCounts_categoryRows (products : list Product) :
  sumCounts (categoryRows products) = Z.of_nat (length products).
Proof.
  rewrite <- entriesTotal_categoryMap. unfold categoryRows.
  induction (categoryMap products) as [|e m IH]; simpl; [reflexivity|].
  rewrite IH. reflexivity.
Qed.

Lemma sumCounts_Permutation (l l' : list CategoryRow) :
  Permutation l l' -> sumCounts l = sumCounts l'.
Proof. induction 1; simpl; lia. Qed.

(** *** The sort *)

Lemma sortInsert_Permutation {A} (cmp : A -> A -> Z) (x : A) (l : list A) :
  Permutation (sortInsert cmp x l) (x :: l).
Proof.
  induction l as [|y l IH]; simpl; [reflexivity|].
  destruct (cmp x y <=? 0); [reflexivity|].
  rewrite IH. apply perm_swap.
Qed.

Lemma arraySort_Permutation {A} (cmp : A -> A -> Z) (l : list A) :
  Permutation (arraySort cmp l) l.
Proof.
  induction l as [|x l IH]; simpl; [reflexivity|].
  rewrite sortInsert_Permutation. constructor. exact IH.
Qed.

Lemma sortInsert_sorted (x : CategoryRow) (l : list CategoryRow) :
  StronglySorted countGe l -> StronglySorted countGe (sortInsert byCountDesc x l).
Proof.
  induction 1 as [|y l Hsorted IH Hall]; simpl.
  - repeat constructor.
  - unfold byCountDesc at 1. destruct (Z.leb_spec (r_count y - r_count x) 0) as [Hle|Hgt].
    + constructor; [constructor; assumption|].
      constructor; [unfold countGe; lia|].
      eapply Forall_impl; [exact Hall|]. unfold countGe. intros z Hz. lia.
    + constructor; [exact IH|].
      rewrite (sortInsert_Permutation byCountDesc x l).
      constructor; [unfold countGe; lia|exact Hall].
Qed.

Lemma arraySort_sorted (l : list CategoryRow) :
  StronglySorted countGe (arraySort byCountDesc l).
Proof.
  induction l as [|x l IH]; simpl; [constructor|].
  apply sortInsert_sorted, IH.
Qed.

(** The rows of one count are not reordered. *)
Lemma sortInsert_stable (n : Z) (x : CategoryRow) (l : list CategoryRow) :
  List.filter (fun r => r_count r =? n) (sortInsert byCountDesc x l)
  = List.filter (fun r => r_count r =? n) (x :: l).
Proof.
  induction l as [|y l IH]; [reflexivity|].
  cbn [sortInsert]. unfold byCountDesc at 1.
  destruct (Z.leb_spec (r_count y - r_count x) 0) as [Hle|Hgt]; [reflexivity|].
  cbn [List.filter] in *. rewrite IH.
  destruct (Z.eqb_spec (r_count x) n), (Z.eqb_spec (r_count y) n);
    try reflexivity. lia.
Qed.

Lemma arraySort_stable (n : Z) (l : list CategoryRow) :
  List.filter (fun r => r_count r =? n) (arraySort byCountDesc l)
  = List.filter (fun r => r_count r =? n) l.
Proof.
  induction l as [|x l IH]; [reflexivity|].
  cbn [arraySort fold_right]. rewrite sortInsert_stable.
  cbn [List.filter]. fold (arraySort byCountDesc l). rewrite IH. reflexivity.
Qed.

(** *** The breakdown *)

Lemma categoryRows_categories (products : list Product) :
  map r_category (categoryRows products) = firstSeen (map category products).
Proof.
  rewrite <- categoryMap_keys. unfold categoryRows.
  rewrite map_map. reflexivity.
Qed.

Lemma categoryRows_counts (products : list Product) :
  Forall (fun row => r_count row = countIn (r_category row) products /\
                     0 < r_count row)
         (categoryRows products).
Proof.
  destruct (categoryMap_grouped products) as (_ & Hcount & _).
  unfold categoryRows. apply Forall_map.
  eapply Forall_impl; [exact Hcount|]. intros e He. exact He.
Qed.

(** C6.  The rows of the breakdown are one per category string met in the
    snapshot (two spellings that differ only in case are two categories),
    with the number of products of exactly that category as count.  Before
    the sort they stand in the order in which their categories are first
    met; the sort permutes them into descending count and keeps the rows of
    equal count in that order.  The counts add up to the number of
    products. *)
Theorem category_breakdown_grouped_sorted (products : list Product) :
  let rows := categoryRows products in
  let sorted := categoryBreakdown products in
  map r_category rows = firstSeen (map category products) /\
  NoDup (map r_category sorted) /\
  (forall c, In c (map r_category sorted) <->
             exists p, In p products /\ category p = c) /\
  Forall (fun row =>
            r_count row
            = Z.of_nat (length (List.filter
                                  (fun p => String.eqb (category p) (r_category row))
                                  products)))
         sorted /\
  Permutation sorted rows /\
  StronglySorted (fun a b => r_count a >= r_count b) sorted /\
  (forall n, List.filter (fun r => r_count r =? n) sorted
             = List.filter (fun r => r_count r =? n) rows) /\
  sumCounts sorted = Z.of_nat (length products).
Proof.
  cbv zeta. unfold categoryBreakdown.
  pose proof (arraySort_Permutation byCountDesc (categoryRows products)) as Hperm.
  pose proof (categoryRows_counts products) as Hcounts.
  destruct (categoryMap_grouped products) as (Hnd & _ & Hout).
  assert (Hkeys : map r_category (categoryRows products)
                  = map fst (categoryMap products)).
  { unfold categoryRows. rewrite map_map. reflexivity. }
  split; [apply categoryRows_categories|].
  split; [rewrite Hperm, Hkeys; exact Hnd|].
  split; [|split; [|split; [exact Hperm|split; [apply arraySort_sorted|split]]]].
  - intros c. rewrite <- countIn_positive.
    assert (In c (map r_category (arraySort byCountDesc (categoryRows products)))
            <-> In c (map r_category (categoryRows products))) as ->.
    { rewrite <- !list_elem_of_In, Hperm. reflexivity. }
    split.
    + intros (row & <- & Hrow)%in_map_iff.
      rewrite Forall_forall in Hcounts.
      destruct (Hcounts row) as [<- Hpos]; [apply list_elem_of_In, Hrow|exact Hpos].
    + intros Hpos. rewrite Hkeys.
      destruct (in_dec String.string_dec c (map fst (categoryMap products)))
        as [Hin|Hnotin]; [exact Hin|].
      rewrite (Hout c Hnotin) in Hpos. lia.
  - rewrite Hperm. eapply Forall_impl; [exact Hcounts|].
    intros row [H _]. exact H.
  - intros n. apply arraySort_stable.
  - rewrite (sumCounts_Permutation _ _ Hperm). apply sumCounts_categoryRows.
Qed.

(** Category strings are compared as they are, and a tie keeps the order of
    first appearance. *)
Example category_breakdown_case_and_ties :
  map (fun row => (r_category row, r_count row))
      (categoryBreakdown
         [ stocked "1" "tools" 1 0 0 1%float;
           stocked "2" "Paint" 1 0 0 1%float;
           stocked "3" "Tools" 1 0 0 1%float;
           stocked "4" "Paint" 1 0 0 1%float;
           stocked "5" "Tools " 1 0 0 1%float ])
  = [("Paint", 2); ("tools", 1); ("Tools", 1); ("Tools ", 1)].
Proof. reflexivity. Qed.

Example category_breakdown_default now :
  map (fun row => (r_category row, r_count row, r_value row))
      (categoryBreakdown (ProductService.defaultProducts now))
  = [ ("Tools", 2, 352.5%float); ("Electrical", 1, 0%float);
      ("Plumbing", 1, 120%float); ("Paint & Supplies", 1, 630%float) ].
Proof. reflexivity. Qed.

End CategoryBreakdown.

(** ** Valuation *)

Lemma Qvalue_zero : Qvalue 0%float = 0%Q.
Proof. reflexivity. Qed.

Lemma exactTotalValue_cons (p : Product) (products : list Product) :
  exactTotalValue (p :: products)
  = (exactLineValue p + exactTotalValue products)%Q.
Proof. reflexivity. Qed.

Lemma exactLineValue_nonneg (p : Product) :
  priced p -> (0 <= exactLineValue p)%Q.
Proof.
  intros [Hs Hc]. unfold exactLineValue.
  apply Qmult_le_0_compat; [|apply nonNegative_Qvalue; exact Hc].
  change 0%Q with (inject_Z 0). rewrite <- Zle_Qle. lia.
Qed.

Lemma exactTotalValue_nonneg (products : list Product) :
  Forall priced products -> (0 <= exactTotalValue products)%Q.
Proof.
  induction 1 as [|p products Hp _ IH]; [cbn; lra|].
  rewrite exactTotalValue_cons.
  pose proof (exactLineValue_nonneg p Hp). lra.
Qed.

(** One turn of the accumulation, in the rationals: [a] is the
    accumulator, within [E] of the exact partial sum [A]; [lv] the rounded
    product, [v] the exact one; [s] the rounded sum. *)
Lemma accumulate_step (a A E v lv s : Q) :
  (0 <= A)%Q -> (0 <= v)%Q -> (A + v <= 1000000000)%Q ->
  (0 <= E)%Q -> (E <= 1 # 100)%Q ->
  (Qabs (a - A) <= E)%Q ->
  (Qabs (lv - v) <= unitRoundoff * v + tiny)%Q ->
  (Qabs (s - (a + lv)) <= unitRoundoff * (a + lv) + tiny)%Q ->
  (Qabs (s - (A + v)) <= E + driftPerProduct)%Q.
Proof.
  intros HA Hv HT HE0 HE Ha Hlv Hs. unfold driftPerProduct.
  destruct tiny_small as [Ht0 Ht].
  rewrite unitRoundoff_value in *.
  apply Qabs_Qle_condition in Ha, Hlv, Hs. apply Qabs_Qle_condition.
  lra.
Qed.

(** The accumulation from any accumulator: after [n] products the
    accumulator is within [n * driftPerProduct] of the exact sum, and each
    further product adds at most one more [driftPerProduct]. *)
Lemma accumulate_drift (products : list Product) (acc : float) (A : Q) (n : Z) :
  Forall priced products ->
  nonNegative acc = true -> 0 <= n -> (0 <= A)%Q ->
  (Qabs (Qvalue acc - A) <= inject_Z n * driftPerProduct)%Q ->
  n + Z.of_nat (length products) <= 10000 ->
  (A + exactTotalValue products <= 1000000000)%Q ->
  let total := fold_left (fun sum p => (sum + lineValue p)%float) products acc in
  nonNegative total = true /\
  (Qabs (Qvalue total - (A + exactTotalValue products))
   <= inject_Z (n + Z.of_nat (length products)) * driftPerProduct)%Q.
Proof.
  intros Hall. revert acc A n.
  induction Hall as [|p products Hp Hall IH]; intros acc A n Hacc Hn HA Herr Hlen HT;
    cbv zeta.
  - cbn [fold_left length exactTotalValue fold_right] in *.
    split; [exact Hacc|].
    rewrite Z.add_0_r.
    apply Qabs_Qle_condition in Herr. apply Qabs_Qle_condition. lra.
  - cbn [fold_left]. rewrite exactTotalValue_cons in *.
    cbn [length] in Hlen. rewrite Nat2Z.inj_succ in Hlen.
    pose proof (exactLineValue_nonneg p Hp) as Hv.
    pose proof (exactTotalValue_nonneg products Hall) as Hrest.
    destruct Hp as [Hstock Hcost].
    destruct (Z2number_Q (current_stock p) Hstock) as [Hzn Hzv].
    assert (Hn' : (inject_Z n <= 10000)%Q).
    { change 10000%Q with (inject_Z 10000). rewrite <- Zle_Qle. lia. }
    assert (Hn0 : (0 <= inject_Z n)%Q).
    { change 0%Q with (inject_Z 0). rewrite <- Zle_Qle. lia. }
    assert (HE : (inject_Z n * driftPerProduct <= 1 # 100)%Q).
    { unfold driftPerProduct. rewrite unitRoundoff_value. lra. }
    assert (HE0 : (0 <= inject_Z n * driftPerProduct)%Q).
    { unfold driftPerProduct. rewrite unitRoundoff_value. lra. }
    destruct tiny_small as [Ht0 Ht].
    (* the product *)
    assert (Hprod : (Qvalue (Z2number (current_stock p)) * Qvalue (cost_price p)
                     == exactLineValue p)%Q).
    { unfold exactLineValue. rewrite Hzv. reflexivity. }
    destruct (mul_Q (Z2number (current_stock p)) (cost_price p) Hzn Hcost)
      as [Hlvn Hlv].
    { rewrite Hprod. apply below_overflow. lra. }
    rewrite Hprod in Hlv. fold (lineValue p) in Hlvn, Hlv.
    (* the sum *)
    assert (Hbound : (Qvalue acc + Qvalue (lineValue p) <= 1000000000000)%Q).
    { pose proof Herr as Herr'. pose proof Hlv as Hlv'.
      apply Qabs_Qle_condition in Herr', Hlv'.
      rewrite unitRoundoff_value in Hlv'. lra. }
    destruct (add_Q acc (lineValue p) Hacc Hlvn (below_overflow _ Hbound))
      as [Hsn Hs].
    pose proof (accumulate_step _ _ _ _ _ _ HA Hv ltac:(lra) HE0 HE Herr Hlv Hs)
      as Hstep.
    destruct (IH (acc + lineValue p)%float (A + exactLineValue p)%Q (n + 1)
                Hsn ltac:(lia) ltac:(lra)) as [Hfin Hfinal].
    + rewrite inject_Z_plus. change (inject_Z 1) with 1%Q.
      apply Qabs_Qle_condition in Hstep. apply Qabs_Qle_condition. lra.
    + lia.
    + lra.
    + split; [exact Hfin|].
      cbn [length]. rewrite Nat2Z.inj_succ.
      replace (n + Z.succ (Z.of_nat (length products)))
        with (n + 1 + Z.of_nat (length products)) by lia.
      apply Qabs_Qle_condition in Hfinal. apply Qabs_Qle_condition. lra.
Qed.

(** C3, as the program has it.  The total is accumulated in binary64
    arithmetic, one rounded product and one rounded sum per product.  For a
    catalog of at most 10,000 products whose stocks are non-negative
    integers below [2 ^ 53] and whose cost prices are non-negative numbers,
    worth at most 10^9 in exact arithmetic, the program's total is a finite
    number less than half a cent away from the exact sum of
    [current_stock * cost_price]. *)
Theorem total_value_within_half_a_cent (products : list Product) :
  Z.of_nat (length products) <= 10000 ->
  Forall priced products ->
  (exactTotalValue products <= 1000000000)%Q ->
  finite (totalValue products) = true /\
  (Qabs (Qvalue (totalValue products) - exactTotalValue products) < 1 # 200)%Q.
Proof.
  intros Hlen Hall HT.
  destruct (accumulate_drift products 0%float 0%Q 0 Hall eq_refl ltac:(lia)
              ltac:(lra)) as [Hn Herr].
  - rewrite Qvalue_zero. cbn. discriminate.
  - lia.
  - lra.
  - fold (totalValue products) in Hn, Herr. split.
    + apply nonNegative_finite. exact Hn.
    + rewrite Z.add_0_l in Herr.
      assert (Hn' : (inject_Z (Z.of_nat (length products)) <= 10000)%Q).
      { change 10000%Q with (inject_Z 10000). rewrite <- Zle_Qle. lia. }
      assert (Hn0 : (0 <= inject_Z (Z.of_nat (length products)))%Q).
      { change 0%Q with (inject_Z 0). rewrite <- Zle_Qle. lia. }
      unfold driftPerProduct in Herr. rewrite unitRoundoff_value in Herr.
      apply Qabs_Qle_condition in Herr.
      apply Qabs_Qlt_condition. lra.
Qed.

(** The theorem at decimal prices: 3 at 24.99, 7 at 15.99 and 2 at 7.99.
    The program's total is not the exact sum, yet it is within half a cent
    of it, and of the 202.88 of decimal arithmetic. *)
Lemma total_value_decimal_catalog :
  (finite (totalValue decimalCatalog) = true /\
   (Qabs (Qvalue (totalValue decimalCatalog) - exactTotalValue decimalCatalog)
    < 1 # 200)%Q) /\
  ~ (Qvalue (totalValue decimalCatalog) == exactTotalValue decimalCatalog)%Q /\
  (Qabs (Qvalue (totalValue decimalCatalog) - (20288 # 100)) < 1 # 200)%Q.
Proof.
  split; [|split].
  - apply (total_value_within_half_a_cent decimalCatalog).
    + vm_compute. discriminate.
    + repeat constructor; vm_compute; congruence.
    + vm_compute. discriminate.
  - intros H. apply Qeq_eq_bool in H. vm_compute in H. discriminate H.
  - vm_compute. reflexivity.
Defined.

(** C3, as stated, fails: for this catalog of two products the program's
    total is 10^16 while the exact sum is 10^16 + 1, a whole unit of
    currency more. *)
Lemma total_value_rounds_large_catalog :
  Z.of_nat (length largeCatalog) <= 10000 /\
  totalValue largeCatalog = 1e16%float /\
  (Qvalue (totalValue largeCatalog) == 10000000000000000)%Q /\
  (exactTotalValue largeCatalog == 10000000000000001)%Q /\
  (1 # 100 < Qabs (exactTotalValue largeCatalog - Qvalue (totalValue largeCatalog)))%Q.
Proof.
  split; [simpl; lia|].
  split; [vm_compute; reflexivity|].
  split; [vm_compute; reflexivity|].
  split; vm_compute; reflexivity.
Qed.

(** Below a cent, a rounded sum already shows with one-digit prices. *)
#[warnings="-inexact-float"]
Example total_value_tenths :
  let catalog := [ stocked "1" "Misc" 1 0 0 0.1%float;
                   stocked "2" "Misc" 1 0 0 0.2%float ] in
  ~ (Qvalue (totalValue catalog) == exactTotalValue catalog)%Q.
Proof.
  intros catalog H. apply Qeq_eq_bool in H. vm_compute in H. discriminate H.
Qed.

(** ** The stored statistics *)

(** The report holds the aggregates studied above. *)
Lemma fetchReportData_fields (products : list Product) :
  let report := Reports.fetchReportData products in
  Reports.rd_totalProducts report = length products /\
  Reports.rd_totalValue report = totalValue products /\
  Reports.rd_lowStockCount report = length (List.filter isLowStock products) /\
  Reports.rd_outOfStockCount report = length (List.filter isOutOfStock products) /\
  Reports.rd_categoryBreakdown report = Reports.categoryBreakdown products /\
  Reports.rd_stockLevels report = Reports.stockLevels products.
Proof. repeat split. Qed.

(** The dashboard of the scenario catalog: three products, one low, one
    out of stock, worth 352.50. *)
Example dashboard_scenario :
  Dashboard.stats scenarioCatalog
  = Dashboard.mkStats 3 1 352.5%float 1.
Proof. reflexivity. Qed.

(** * Further properties of the catalog store *)

Section StoreLookups.

Import ProductService.

Lemma find_app {A} (f : A -> bool) (l1 l2 : list A) :
  List.find f (l1 ++ l2)
  = match List.find f l1 with
    | Some x => Some x
    | None => List.find f l2
    end.
Proof.
  induction l1 as [|x l1 IH]; simpl; [reflexivity|].
  destruct (f x); [reflexivity|exact IH].
Qed.

Lemma find_sameId_None (i : string) (products : list Product) :
  List.find (sameId i) products = None
  <-> forall p, In p products -> id p <> i.
Proof.
  split.
  - intros H p Hp E. apply (List.find_none _ _ H) in Hp.
    unfold sameId in Hp. rewrite E, String.eqb_refl in Hp. discriminate.
  - intros H. destruct (List.find (sameId i) products) as [p|] eqn:F; [|reflexivity].
    apply List.find_some in F. destruct F as [Hin E].
    apply String.eqb_eq in E. destruct (H p Hin E).
Qed.

Lemma sameId_other (i j : string) (p : Product) :
  id p = i -> j <> i -> sameId j p = false.
Proof.
  intros <- Hne. unfold sameId. apply String.eqb_neq. congruence.
Qed.

Lemma filter_same_length {A} (f : A -> bool) (l : list A) :
  length (List.filter f l) = length l -> List.filter f l = l.
Proof.
  induction l as [|x l IH]; simpl; [reflexivity|].
  pose proof (List.filter_length_le f l) as Hle.
  destruct (f x); simpl; intros H; [f_equal; apply IH; lia|lia].
Qed.

(** Whatever it returns, [delete] leaves the records of the other ids. *)
Lemma getAll_delete (i : string) (st : Storage) :
  getAll (snd (delete i st)) = List.filter (otherId i) (getAll st).
Proof.
  unfold delete.
  destruct (Nat.eqb_spec (length (List.filter (otherId i) (getAll st)))
                         (length (getAll st))) as [E|_]; simpl.
  - symmetry. apply filter_same_length, E.
  - reflexivity.
Qed.

Lemma find_after_filter (i j : string) (products : list Product) :
  List.find (sameId j) (List.filter (otherId i) products)
  = if String.eqb j i then None else List.find (sameId j) products.
Proof.
  induction products as [|p l IH]; simpl.
  - destruct (String.eqb j i); reflexivity.
  - unfold otherId at 1, sameId at 2.
    destruct (String.eqb_spec (id p) i) as [E|Hne]; simpl.
    + rewrite IH. destruct (String.eqb_spec j i) as [->|Hji]; [reflexivity|].
      destruct (String.eqb_spec (id p) j) as [E'|_]; [congruence|reflexivity].
    + unfold sameId at 1. destruct (String.eqb_spec (id p) j) as [E'|_].
      * destruct (String.eqb_spec j i) as [->|_]; [contradiction|reflexivity].
      * exact IH.
Qed.

Lemma update_hit (now i : string) (updates : PartialProduct) (st : Storage)
    (index : nat) :
  findIndex (sameId i) (getAll st) = Some index ->
  exists old,
    getAll st !! index = Some old /\ id old = i /\
    (forall p, In p (take index (getAll st)) -> id p <> i) /\
    update now i updates st
    = (Some (merge old updates now),
       setProducts (take index (getAll st) ++ merge old updates now
                      :: drop (S index) (getAll st)) st).
Proof.
  intros F. destruct (findIndex_Some i _ _ F) as (old & Hl & Hid & Hfirst).
  exists old. pose proof (lookup_lt_Some _ _ _ Hl) as Hlt.
  repeat split; [exact Hl|exact Hid| |].
  - intros p Hp%list_elem_of_In%elem_of_take. destruct Hp as (j & Hj & Hlt').
    apply (Hfirst j p Hlt' Hj).
  - unfold update. rewrite F, Hl. cbv zeta.
    rewrite list_lookup_insert_eq by exact Hlt.
    rewrite insert_take_drop by exact Hlt. reflexivity.
Qed.

Lemma getAll_create
    (ms : Z) (created updated : string) (product : NewProduct) (st : Storage) :
  getAll (snd (create ms created updated product st))
  = getAll st ++ [newProduct ms created updated product].
Proof. reflexivity. Qed.

(** X1.  [create] appends the new record to the catalog, with the decimal
    digits of the clock reading as id.  Afterwards every other id is looked
    up as before; the new id yields the new record when no record carried
    it, and still yields the older record when one did. *)
Theorem create_then_getById
    (ms : Z) (created updated : string) (product : NewProduct) (st : Storage) :
  let new := fst (create ms created updated product st) in
  let st' := snd (create ms created updated product st) in
  getAll st' = getAll st ++ [new] /\
  id new = clockId ms /\
  (forall j, j <> clockId ms -> getById j st' = getById j st) /\
  ((forall p, In p (getAll st) -> id p <> clockId ms) ->
   getById (clockId ms) st' = Some new) /\
  (forall old, getById (clockId ms) st = Some old ->
               getById (clockId ms) st' = Some old).
Proof.
  cbv zeta. unfold getById. rewrite getAll_create.
  change (fst (create ms created updated product st))
    with (newProduct ms created updated product).
  split; [reflexivity|]. split; [reflexivity|]. split; [|split].
  - intros j Hj. rewrite find_app. cbn [List.find].
    rewrite (sameId_other (clockId ms) j); [|reflexivity|exact Hj].
    destruct (List.find (sameId j) (getAll st)); reflexivity.
  - intros Hfresh. rewrite find_app.
    apply find_sameId_None in Hfresh. rewrite Hfresh. cbn [List.find].
    unfold sameId. cbn [id newProduct]. rewrite String.eqb_refl. reflexivity.
  - intros old Hold. rewrite find_app, Hold. reflexivity.
Qed.

Lemma clockId_inj (a b : Z) : clockId a = clockId b -> a = b.
Proof.
  unfold clockId. intros H.
  assert (Hnil : forall z, Z.to_int z <> Decimal.Pos Decimal.Nil /\
                           Z.to_int z <> Decimal.Neg Decimal.Nil).
  { intros [|q|q]; simpl; split; try discriminate;
      intros [= E]; exact (DecimalPos.Unsigned.to_uint_nonnil q E). }
  apply DecimalZ.to_int_inj.
  assert (Some (Z.to_int a) = Some (Z.to_int b)) as [= E]; [|exact E].
  rewrite <- (NilZero.isi (Z.to_int a)), <- (NilZero.isi (Z.to_int b));
    try apply Hnil.
  rewrite H. reflexivity.
Qed.

Lemma NoDup_snoc (l : list string) (x : string) :
  NoDup (l ++ [x]) <-> NoDup l /\ ~ In x l.
Proof.
  rewrite NoDup_app. split.
  - intros (Hl & Hx & _). split; [exact Hl|].
    intros Hin%list_elem_of_In. apply (Hx x Hin), list_elem_of_singleton.
    reflexivity.
  - intros [Hl Hx]. repeat split; [exact Hl| |apply NoDup_singleton].
    intros y Hy ->%list_elem_of_singleton. apply Hx, list_elem_of_In, Hy.
Qed.

(** X2.  Two clock readings give the same id only when they are equal, and
    [create] checks nothing: on a catalog of distinct ids, the ids stay
    distinct exactly when no record carries the digits of the reading; so
    two products created at the same millisecond share their id. *)
Theorem create_ids_distinct
    (ms : Z) (created updated : string) (product : NewProduct) (st : Storage) :
  NoDup (map id (getAll st)) ->
  (NoDup (map id (getAll (snd (create ms created updated product st))))
   <-> forall p, In p (getAll st) -> id p <> clockId ms) /\
  (forall ms', clockId ms' = clockId ms <-> ms' = ms) /\
  (forall created' updated' product',
     ~ NoDup (map id (getAll (snd (create ms created' updated' product'
                                     (snd (create ms created updated product st))))))).
Proof.
  intros Hnd. split; [|split].
  - rewrite getAll_create, map_app. cbn [map id newProduct].
    rewrite NoDup_snoc. split.
    + intros [_ Hx] p Hp E. apply Hx. rewrite <- E. apply in_map, Hp.
    + intros H. split; [exact Hnd|].
      intros (p & E & Hp)%in_map_iff. apply (H p Hp E).
  - intros ms'. split; [apply clockId_inj|intros ->; reflexivity].
  - intros created' updated' product'.
    rewrite !getAll_create, !map_app. cbn [map id newProduct].
    rewrite NoDup_snoc. intros [_ Hx]. apply Hx, in_or_app. right. left. reflexivity.
Qed.

Lemma create_ids_distinct_witness :
  NoDup (map id (defaultProducts "2026-01-01T00:00:00.000Z")) /\
  NoDup (map id (getAll (snd (create 1767225600000 "2026-01-01T00:00:00.000Z"
                                "2026-01-01T00:00:00.000Z"
                                (mkNew "Nail" "" "Hardware" "" "HAR-1" None 4 2 9
                                       1%float 2%float "" "")
                                (initializeData "2026-01-01T00:00:00.000Z"
                                                (mkStorage None)))))).
Proof.
  assert (H : NoDup (map id (getAll (initializeData "2026-01-01T00:00:00.000Z"
                                                    (mkStorage None))))).
  { cbn. repeat (apply NoDup_cons; split;
                 [rewrite !list_elem_of_In; cbn; intuition discriminate|]).
    apply NoDup_nil. reflexivity. }
  split; [exact H|].
  apply (proj1 (create_ids_distinct 1767225600000 "2026-01-01T00:00:00.000Z"
                  "2026-01-01T00:00:00.000Z"
                  (mkNew "Nail" "" "Hardware" "" "HAR-1" None 4 2 9
                         1%float 2%float "" "")
                  _ H)).
  intros p Hp. cbn in Hp. vm_compute.
  intuition (subst; discriminate).
Defined.

(** X3.  When the patch names no id, [update] returns what [getById] of
    that id returns afterwards, record or [null]; the other ids are looked
    up as before and the list of ids is unchanged. *)
Theorem update_then_getById
    (now i : string) (updates : PartialProduct) (st : Storage) :
  p_id updates = None ->
  let result := fst (update now i updates st) in
  let st' := snd (update now i updates st) in
  getById i st' = result /\
  (result = None <-> forall p, In p (getAll st) -> id p <> i) /\
  (forall j, j <> i -> getById j st' = getById j st) /\
  map id (getAll st') = map id (getAll st).
Proof.
  intros Hpatch. cbv zeta. unfold getById.
  destruct (findIndex (sameId i) (getAll st)) as [index|] eqn:F.
  - destruct (update_hit now i updates st index F)
      as (old & Hl & Hid & Hbefore & ->).
    cbn [fst snd getAll setProducts PRODUCTS].
    assert (Hnew : id (merge old updates now) = i).
    { unfold merge. cbn [id]. rewrite Hpatch. exact Hid. }
    pose proof (take_drop_middle _ _ _ Hl) as Hsplit.
    set (pre := take index (getAll st)) in *.
    set (post := drop (S index) (getAll st)) in *.
    split; [|split; [|split]].
    + rewrite find_app. apply find_sameId_None in Hbefore. rewrite Hbefore.
      cbn [List.find]. unfold sameId at 1. rewrite Hnew, String.eqb_refl.
      reflexivity.
    + split; [discriminate|]. intros H. exfalso.
      apply (H old); [|exact Hid]. apply list_elem_of_In, list_elem_of_lookup.
      exists index. exact Hl.
    + intros j Hj. rewrite <- Hsplit. rewrite !find_app.
      cbn [List.find].
      rewrite (sameId_other i j _ Hnew Hj), (sameId_other i j _ Hid Hj).
      reflexivity.
    + rewrite <- Hsplit. rewrite !map_app. cbn [map].
      rewrite Hnew, Hid. reflexivity.
  - unfold update. rewrite F. cbn [fst snd].
    pose proof (proj1 (findIndex_None i (getAll st)) F) as Hno.
    split; [apply find_sameId_None, Hno|]. split; [tauto|]. split; reflexivity.
Qed.

Lemma update_then_getById_witness :
  p_id (mkPartial None None None None None None None (Some 40)
                  None None None None None None None None) = None /\
  option_map current_stock
    (getById "2" (snd (update "later" "2"
                         (mkPartial None None None None None None None (Some 40)
                                    None None None None None None None None)
                         (initializeData "now" (mkStorage None)))))
  = Some 40.
Proof.
  split; [reflexivity|].
  rewrite (proj1 (update_then_getById "later" "2"
                    (mkPartial None None None None None None None (Some 40)
                               None None None None None None None None)
                    (initializeData "now" (mkStorage None)) eq_refl)).
  reflexivity.
Defined.

(** A patch that names another id moves the record away from the id that
    was asked for. *)
Example update_renames now :
  let st := initializeData now (mkStorage None) in
  let patch := mkPartial (Some "7") None None None None None None None
                 None None None None None None None None in
  let r := update now "2" patch st in
  option_map id (fst r) = Some "7" /\ getById "2" (snd r) = None.
Proof. split; reflexivity. Qed.

(** X4.  After [delete] of an id, whatever it returned, [getById] of that
    id finds nothing and a second [delete] of it returns [false] and changes
    nothing; the other ids are looked up as before, and distinct ids stay
    distinct. *)
Theorem delete_then_getById (i : string) (st : Storage) :
  let st' := snd (delete i st) in
  getById i st' = None /\
  delete i st' = (false, st') /\
  (forall j, j <> i -> getById j st' = getById j st) /\
  (NoDup (map id (getAll st)) -> NoDup (map id (getAll st'))).
Proof.
  cbv zeta. unfold getById.
  assert (Hnone : List.find (sameId i) (getAll (snd (delete i st))) = None).
  { rewrite getAll_delete, find_after_filter, String.eqb_refl. reflexivity. }
  split; [exact Hnone|]. split; [|split].
  - pose proof (proj1 (find_sameId_None i _) Hnone) as Hno.
    unfold delete at 1.
    rewrite (filter_keeps_all i _ Hno), Nat.eqb_refl. reflexivity.
  - intros j Hj. rewrite getAll_delete, find_after_filter.
    destruct (String.eqb_spec j i); [contradiction|reflexivity].
  - rewrite getAll_delete. intros Hnd.
    eapply sublist_NoDup; [exact Hnd|].
    apply (fmap_sublist id), filter_sublist_of.
Qed.

(** X5.  [initializeData] installs the default catalog only in a storage
    that holds none, and a storage that holds one, even an empty one, is
    left as it is; so after the first initialisation no run of [create],
    [update] and [delete] calls is ever followed by a re-seeding. *)
Theorem initializeData_once
    (now now' : string) (ops : list Operation) (st : Storage) :
  (PRODUCTS st = None -> getAll (initializeData now st) = defaultProducts now) /\
  (forall products, PRODUCTS st = Some products -> initializeData now st = st) /\
  let st' := performAll ops (initializeData now st) in
  PRODUCTS st' <> None /\ initializeData now' st' = st'.
Proof.
  split; [|split].
  - intros H. unfold initializeData. rewrite H. reflexivity.
  - intros products H. unfold initializeData. rewrite H. reflexivity.
  - cbv zeta.
    assert (Hkept : forall op s, PRODUCTS s <> None -> PRODUCTS (perform op s) <> None).
    { intros [ms created updated product|t i updates|i] s Hs; cbn [perform].
      - discriminate.
      - unfold update. destruct (findIndex _ _); [|exact Hs].
        destruct (getAll s !! n); [discriminate|exact Hs].
      - unfold delete. destruct (negb _); [discriminate|exact Hs]. }
    assert (Hinit : PRODUCTS (initializeData now st) <> None).
    { unfold initializeData. destruct (PRODUCTS st) eqn:E; [congruence|discriminate]. }
    assert (Hrun : PRODUCTS (performAll ops (initializeData now st)) <> None).
    { unfold performAll. revert Hinit. generalize (initializeData now st).
      induction ops as [|op ops IH]; intros s Hs; [exact Hs|].
      cbn [fold_left]. apply IH, Hkept, Hs. }
    split; [exact Hrun|].
    revert Hrun. generalize (performAll ops (initializeData now st)).
    intros s Hs. unfold initializeData.
    destruct (PRODUCTS s); [reflexivity|contradiction].
Qed.

(** Emptying the default catalog and loading the page again leaves it
    empty. *)
Example initializeData_after_emptying now now' :
  let ops := [Delete "1"; Delete "2"; Delete "3"; Delete "4"; Delete "5"] in
  getAll (initializeData now'
            (performAll ops (initializeData now (mkStorage None)))) = [].
Proof. reflexivity. Qed.

(** X20.  A record created under an id no record carried is removed
    again by [delete] of that id, which returns [true] and leaves the
    catalog that was there before the creation. *)
Theorem create_then_delete
    (ms : Z) (created updated : string) (product : NewProduct) (st : Storage) :
  (forall p, In p (getAll st) -> id p <> clockId ms) ->
  let st' := snd (create ms created updated product st) in
  fst (delete (clockId ms) st') = true /\
  getAll (snd (delete (clockId ms) st')) = getAll st.
Proof.
  intros Hfresh. cbv zeta.
  assert (Hfilter :
            List.filter (otherId (clockId ms))
                        (getAll (snd (create ms created updated product st)))
            = getAll st).
  { rewrite getAll_create, List.filter_app, (filter_keeps_all _ _ Hfresh).
    cbn [List.filter]. unfold otherId at 1. cbn [id newProduct].
    rewrite String.eqb_refl. apply app_nil_r. }
  split.
  - unfold delete. rewrite Hfilter, getAll_create, length_app. cbn [length].
    destruct (Nat.eqb_spec (length (getAll st)) (length (getAll st) + 1));
      [lia|reflexivity].
  - rewrite getAll_delete. exact Hfilter.
Qed.

Lemma create_then_delete_witness :
  getAll (snd (delete (clockId 1767225600000)
                 (snd (create 1767225600000 "c" "u"
                         (mkNew "Nail" "" "Hardware" "" "HAR-1" None 4 2 9
                                1%float 2%float "" "")
                         (initializeData "now" (mkStorage None))))))
  = getAll (initializeData "now" (mkStorage None)).
Proof.
  apply (create_then_delete 1767225600000 "c" "u"
           (mkNew "Nail" "" "Hardware" "" "HAR-1" None 4 2 9
                  1%float 2%float "" "")
           (initializeData "now" (mkStorage None))).
  intros p Hp. cbn in Hp. vm_compute.
  intuition (subst; discriminate).
Defined.

End StoreLookups.

(** * Sign-in *)

Section SignIn.

Import AuthService.

Lemma credentialsMatch_spec (email password : string) (u : StoredUser) :
  credentialsMatch email password u = true
  <-> su_email u = email /\ su_password u = password.
Proof.
  unfold credentialsMatch. rewrite andb_true_iff, !String.eqb_eq. reflexivity.
Qed.

(** X6.  [signIn] succeeds exactly when a stored user has this email and
    this password.  It then returns that user's id, email and role, without
    an error, and records the same user as the current one; otherwise it
    returns no user and the error text, and the storage, with whoever was
    signed in, stays as it was.  The user list is never changed. *)
Theorem signIn_outcome (email password : string) (st : Storage) :
  let result := fst (signIn email password st) in
  let st' := snd (signIn email password st) in
  (error result = None
   <-> exists u, In u (storedUsers st) /\
                 su_email u = email /\ su_password u = password) /\
  (user result = None <-> error result = Some "Invalid email or password") /\
  (forall u, user result = Some u ->
     error result = None /\ user_email u = email /\
     getCurrentUser st' = Some u /\
     exists stored, In stored (storedUsers st) /\
       su_email stored = email /\ su_password stored = password /\
       su_id stored = user_id u /\ su_role stored = user_role u) /\
  (user result = None -> st' = st) /\
  USERS st' = USERS st.
Proof.
  cbv zeta. unfold signIn.
  destruct (List.find (credentialsMatch email password) (storedUsers st))
    as [u|] eqn:F; cbn [fst snd user error USERS CURRENT_USER getCurrentUser].
  - apply List.find_some in F. destruct F as [Hin Hm].
    apply credentialsMatch_spec in Hm. destruct Hm as [He Hp].
    split; [|split; [|split; [|split]]].
    + split; [|reflexivity]. intros _. exists u. tauto.
    + split; discriminate.
    + intros u' [= <-]. cbn [user_email user_id user_role].
      repeat split; [exact He|]. exists u. tauto.
    + discriminate.
    + reflexivity.
  - split; [|split; [|split; [|split]]].
    + split; [discriminate|]. intros (u & Hin & He & Hp). exfalso.
      pose proof (List.find_none _ _ F u Hin) as Hm.
      assert (credentialsMatch email password u = true)
        by (apply credentialsMatch_spec; tauto).
      congruence.
    + split; reflexivity.
    + discriminate.
    + reflexivity.
    + reflexivity.
Qed.

Lemma callAll_USERS (calls : list Call) (st : Storage) :
  USERS (callAll calls st) = USERS st.
Proof.
  unfold callAll. revert st.
  induction calls as [|c calls IH]; intros st; [reflexivity|].
  cbn [fold_left]. rewrite IH. destruct c as [email password|]; cbn [call].
  - unfold signIn. destruct (List.find _ _); reflexivity.
  - reflexivity.
Qed.

Lemma signIn_depends_on_USERS (email password : string) (st1 st2 : Storage) :
  USERS st1 = USERS st2 ->
  fst (signIn email password st1) = fst (signIn email password st2).
Proof.
  intros H. unfold signIn, storedUsers. rewrite H.
  destruct (List.find _ _); reflexivity.
Qed.

(** X7.  After [signOut] nobody is signed in, and a successful [signIn] is
    what [getCurrentUser] returns until the next call.  No run of [signIn]
    and [signOut] calls changes the stored users, so the same credentials
    get the same answer before and after any such run. *)
Theorem session_round_trip
    (email password : string) (calls : list Call) (st : Storage) :
  getCurrentUser (signOut st) = None /\
  signOut (signOut st) = signOut st /\
  (forall u, user (fst (signIn email password st)) = Some u ->
     getCurrentUser (snd (signIn email password st)) = Some u /\
     getCurrentUser (signOut (snd (signIn email password st))) = None) /\
  (user (fst (signIn email password st)) = None ->
   getCurrentUser (snd (signIn email password st)) = getCurrentUser st) /\
  USERS (callAll calls st) = USERS st /\
  fst (signIn email password (callAll calls st))
  = fst (signIn email password st).
Proof.
  split; [reflexivity|]. split; [reflexivity|].
  split; [|split; [|split]].
  - intros u. unfold signIn. destruct (List.find _ _); cbn; [|discriminate].
    intros [= <-]. split; reflexivity.
  - unfold signIn. destruct (List.find _ _); cbn; [discriminate|reflexivity].
  - apply callAll_USERS.
  - apply signIn_depends_on_USERS, callAll_USERS.
Qed.

(** The two demonstration accounts of a fresh storage, and a wrong
    password. *)
Example signIn_default_accounts :
  let st := initializeData (mkStorage None None) in
  option_map user_role (user (fst (signIn "admin@stockpile.com" "admin123" st)))
  = Some admin /\
  option_map user_role (user (fst (signIn "user@stockpile.com" "user123" st)))
  = Some associate /\
  user (fst (signIn "admin@stockpile.com" "user123" st)) = None.
Proof. repeat split. Qed.

End SignIn.

(** * The inventory view *)

Section InventoryView.

Import ViewInventory.

Variable toLowerCase : string -> string.
Variable includes : string -> string -> bool.

Local Abbreviation applyFilters :=
  (ViewInventory.applyFilters toLowerCase includes).
Local Abbreviation passes := (ViewInventory.passes toLowerCase includes).

Lemma filter_filter {A} (f g : A -> bool) (l : list A) :
  List.filter g (List.filter f l) = List.filter (fun x => f x && g x) l.
Proof.
  induction l as [|x l IH]; simpl; [reflexivity|].
  destruct (f x); simpl; [destruct (g x); rewrite IH; reflexivity|exact IH].
Qed.

Lemma filter_true {A} (l : list A) : List.filter (fun _ => true) l = l.
Proof. induction l as [|x l IH]; simpl; [|rewrite IH]; reflexivity. Qed.

Lemma filter_if {A} (b : bool) (f : A -> bool) (l : list A) :
  (if b then List.filter f l else l)
  = List.filter (fun x => if b then f x else true) l.
Proof. destruct b; [reflexivity|symmetry; apply filter_true]. Qed.

Lemma applyFilters_filter (products : list Product)
    (searchTerm selectedCategory : string) (stockFilter : StockFilter) :
  applyFilters products searchTerm selectedCategory stockFilter
  = List.filter (passes searchTerm selectedCategory stockFilter) products.
Proof.
  unfold ViewInventory.applyFilters, ViewInventory.passes. cbv zeta.
  rewrite !filter_if.
  destruct stockFilter; rewrite !filter_filter; apply List.filter_ext;
    intros p; rewrite ?andb_true_r, ?andb_assoc; reflexivity.
Qed.

(** X8.  [applyFilters] only selects: its result is the products that pass
    the active filters, in their order.  With no search term, no category
    and the stock filter on "all" it is the whole list; filtering the
    result again changes nothing; and the three filters may as well be
    applied one after the other, in the opposite order. *)
Theorem applyFilters_selects (products : list Product)
    (searchTerm selectedCategory : string) (stockFilter : StockFilter) :
  let shown := applyFilters products searchTerm selectedCategory stockFilter in
  sublist shown products /\
  (forall p, In p shown <->
             In p products /\
             passes searchTerm selectedCategory stockFilter p = true) /\
  applyFilters products "" "" all = products /\
  applyFilters shown searchTerm selectedCategory stockFilter = shown /\
  applyFilters
    (applyFilters (applyFilters products "" "" stockFilter)
                  "" selectedCategory all)
    searchTerm "" all
  = shown.
Proof.
  cbv zeta. rewrite !applyFilters_filter.
  split; [apply filter_sublist_of|]. split; [intros p; apply List.filter_In|].
  split; [apply filter_true|]. split.
  - rewrite filter_filter. apply List.filter_ext. intros p.
    destruct (passes _ _ _ p); reflexivity.
  - rewrite !filter_filter. apply List.filter_ext. intros p.
    unfold ViewInventory.passes. cbn.
    destruct (truthy searchTerm), (truthy selectedCategory), stockFilter; cbn;
      rewrite ?andb_true_r;
      repeat match goal with
             | |- context [matchesSearch ?a ?b ?c ?d] =>
                 destruct (matchesSearch a b c d)
             | |- context [String.eqb ?a ?b] => destruct (String.eqb a b)
             | |- context [Z.leb ?a ?b] => destruct (Z.leb a b)
             | |- context [Z.gtb ?a ?b] => destruct (Z.gtb a b)
             | |- context [Z.eqb ?a ?b] => destruct (Z.eqb a b)
             end; reflexivity.
Qed.

(** X9.  Every card shown under the "low" stock filter carries the low
    status and every card under "out" the out status, so each has the
    "Needs restocking" note; and a product of non-negative stock that has
    the note is found under one of the two filters. *)
Theorem stock_filter_agrees_with_status (products : list Product)
    (searchTerm selectedCategory : string) :
  Forall (fun p => getStockStatus p = Low /\ needsRestocking p = true)
         (applyFilters products searchTerm selectedCategory low) /\
  Forall (fun p => getStockStatus p = Out /\ needsRestocking p = true)
         (applyFilters products searchTerm selectedCategory out) /\
  (forall p, In p products -> 0 <= current_stock p ->
             needsRestocking p = true ->
             In p (applyFilters products "" "" low) \/
             In p (applyFilters products "" "" out)).
Proof.
  rewrite !applyFilters_filter. split; [|split].
  - apply Forall_forall. intros p Hp%list_elem_of_In%List.filter_In.
    destruct Hp as [_ Hp]. unfold ViewInventory.passes in Hp.
    apply andb_prop in Hp. destruct Hp as [_ Hp].
    assert (Hlow : getStockStatus p = Low) by (apply isLowStock_Low, Hp).
    unfold needsRestocking. rewrite Hlow. split; reflexivity.
  - apply Forall_forall. intros p Hp%list_elem_of_In%List.filter_In.
    destruct Hp as [_ Hp]. unfold ViewInventory.passes in Hp.
    apply andb_prop in Hp. destruct Hp as [_ Hp].
    assert (Hout : getStockStatus p = Out)
      by (apply getStockStatus_Out, Z.eqb_eq, Hp).
    unfold needsRestocking. rewrite Hout. split; reflexivity.
  - intros p Hin Hs Hnote. unfold needsRestocking in Hnote.
    destruct (getStockStatus p) eqn:E; [| |discriminate].
    + right. apply List.filter_In. split; [exact Hin|].
      apply getStockStatus_Out in E. unfold ViewInventory.passes. cbn.
      apply Z.eqb_eq, E.
    + left. apply List.filter_In. split; [exact Hin|].
      apply getStockStatus_Low in E. unfold ViewInventory.passes. cbn.
      apply andb_true_iff. rewrite Z.leb_le, Z.gtb_gt. lia.
Qed.

End InventoryView.

(** * Deleting and adding through the views *)

Section Views.

Import ProductService.

(** X10.  [handleDelete] does nothing for an associate or when the
    confirmation is declined.  For an administrator who confirms, the
    storage is the one [delete] leaves, and a view that listed the stored
    catalog lists the stored catalog afterwards too: no reload is needed. *)
Theorem handleDelete_keeps_view_in_step
    (user : AuthService.User) (confirmed : bool) (productId : string)
    (st : Storage) (products : list Product) :
  let st' := fst (ViewInventory.handleDelete user confirmed productId st products) in
  let products' := snd (ViewInventory.handleDelete user confirmed productId st products) in
  (AuthService.user_role user = AuthService.associate \/ confirmed = false ->
   st' = st /\ products' = products) /\
  (AuthService.user_role user = AuthService.admin -> confirmed = true ->
   st' = snd (delete productId st) /\
   (forall p, In p products' <-> In p products /\ id p <> productId) /\
   (products = getAll st -> products' = getAll st')).
Proof.
  cbv zeta. unfold ViewInventory.handleDelete. split.
  - intros [Hrole| ->].
    + rewrite Hrole. split; reflexivity.
    + destruct (AuthService.user_role user); split; reflexivity.
  - intros -> ->. cbn [fst snd]. split; [reflexivity|]. split.
    + intros p. rewrite List.filter_In, negb_true_iff, String.eqb_neq. reflexivity.
    + intros ->. rewrite getAll_delete. reflexivity.
Qed.

(** X11.  [handleSubmit] refuses an associate: the storage and the form
    are left as they are.  For an administrator the message is the one of
    success, the form is blank again, and the catalog gains one record at
    its end: its id is the clock reading, its timestamps are the two
    readings of [create], and each other field is the field of the same
    name of the form, but for the sku, which is the one typed in or, when
    none was typed, the generated one. *)
Theorem handleSubmit_gate
    (user : AuthService.User) (formData : AddProduct.FormData)
    (generated : string) (ms : Z) (created updated : string) (st : Storage) :
  let outcome := AddProduct.handleSubmit user formData generated ms created updated st in
  (AuthService.user_role user = AuthService.associate ->
   outcome = (AddProduct.failure "Only administrators can add products.",
              formData, st)) /\
  (AuthService.user_role user = AuthService.admin ->
   exists new,
     fst (fst outcome) = AddProduct.success "Product added successfully!" /\
     getAll (snd outcome) = getAll st ++ [new] /\
     snd (fst outcome) = AddProduct.blankForm /\
     new = mkProduct (clockId ms) (AddProduct.f_name formData)
             (AddProduct.f_description formData)
             (AddProduct.f_category formData) (AddProduct.f_brand formData)
             (sku new) (Some (AddProduct.f_barcode formData))
             (AddProduct.f_current_stock formData)
             (AddProduct.f_min_stock_level formData)
             (AddProduct.f_max_stock_level formData)
             (AddProduct.f_cost_price formData)
             (AddProduct.f_selling_price formData)
             (AddProduct.f_supplier formData)
             (AddProduct.f_location formData) created updated /\
     id new = clockId ms /\
     (name new, category new, barcode new)
     = (AddProduct.f_name formData, AddProduct.f_category formData,
        Some (AddProduct.f_barcode formData)) /\
     (current_stock new, min_stock_level new, max_stock_level new)
     = (AddProduct.f_current_stock formData,
        AddProduct.f_min_stock_level formData,
        AddProduct.f_max_stock_level formData) /\
     (cost_price new, selling_price new)
     = (AddProduct.f_cost_price formData, AddProduct.f_selling_price formData) /\
     (AddProduct.f_sku formData <> "" -> sku new = AddProduct.f_sku formData) /\
     (AddProduct.f_sku formData = "" -> sku new = generated)).
Proof.
  cbv zeta. unfold AddProduct.handleSubmit. split.
  - intros ->. reflexivity.
  - intros ->. cbn [fst snd]. rewrite getAll_create.
    eexists. split; [reflexivity|]. split; [reflexivity|].
    split; [reflexivity|]. split; [reflexivity|].
    cbn [id name category barcode current_stock min_stock_level max_stock_level
         cost_price selling_price sku newProduct AddProduct.submitted
         n_name n_category n_barcode n_current_stock n_min_stock_level
         n_max_stock_level n_cost_price n_selling_price n_sku].
    repeat split.
    + intros Hne. unfold ViewInventory.truthy.
      destruct (String.eqb_spec (AddProduct.f_sku formData) ""); [contradiction|reflexivity].
    + intros ->. reflexivity.
Qed.

End Views.

(** * Restocking *)

Section Restocking.

Import Restock.

(** X12.  The quantity an item starts with is positive and never above the
    suggestion shown beside it; the two differ exactly when the computed
    quantity lies strictly between 0 and 10. *)
Theorem initial_quantity_within_suggestion (p : Product) :
  let item := restockItem p in
  0 < actualQuantity item <= suggestedQuantity item /\
  (actualQuantity item <> suggestedQuantity item <-> 0 < rawQuantity p < 10).
Proof.
  cbv zeta. unfold restockItem. cbn [actualQuantity suggestedQuantity].
  destruct (Z.gtb_spec (rawQuantity p) 0); lia.
Qed.

(** X13.  For a product below its maximum level whose levels are in
    order, restocking by the quantity the item starts with brings the stock
    exactly to the maximum level.  The stock fields are at most [2 ^ 52] in
    absolute value, so that the differences and the sum the program forms
    stay below [2 ^ 53], where its arithmetic on whole numbers is exact. *)
Theorem initial_quantity_fills_to_maximum (p : Product) (accepted : bool) :
  Z.abs (current_stock p) <= 2 ^ 52 ->
  Z.abs (min_stock_level p) <= 2 ^ 52 ->
  Z.abs (max_stock_level p) <= 2 ^ 52 ->
  min_stock_level p <= max_stock_level p ->
  current_stock p < max_stock_level p ->
  Z.abs (rawQuantity p) <= 2 ^ 53 /\
  fst (handleRestock (id p) accepted [restockItem p])
  = Some {| u_id := id p; u_current_stock := max_stock_level p |}.
Proof.
  intros Hstock Hmin Hmax Hlevels Hbelow.
  split; [unfold rawQuantity; lia|]. unfold handleRestock. cbn [List.find product restockItem].
  rewrite String.eqb_refl. cbn [fst actualQuantity product].
  f_equal. f_equal. unfold restockItem. cbn [product actualQuantity].
  destruct (Z.gtb_spec (rawQuantity p) 0) as [H|H];
    unfold rawQuantity in *; lia.
Qed.

Lemma initial_quantity_fills_to_maximum_witness :
  Z.abs (rawQuantity (stocked "2" "Tools" 5 15 40 8%float)) <= 2 ^ 53 /\
  fst (handleRestock "2" true [restockItem (stocked "2" "Tools" 5 15 40 8%float)])
  = Some {| u_id := "2"; u_current_stock := 40 |}.
Proof.
  apply (initial_quantity_fills_to_maximum (stocked "2" "Tools" 5 15 40 8%float) true);
    simpl; lia.
Defined.

Lemma applyUpdates_non_negative (calls : list (string * Z))
    (items : list RestockItem) :
  Forall (fun item => 0 <= actualQuantity item) items ->
  Forall (fun item => 0 <= actualQuantity item) (applyUpdates calls items).
Proof.
  unfold applyUpdates. revert items.
  induction calls as [|c calls IH]; intros items H; [exact H|].
  cbn [fold_left]. apply IH, updateQuantity_non_negative, H.
Qed.

Lemma applyUpdates_products (calls : list (string * Z))
    (items : list RestockItem) :
  map product (applyUpdates calls items) = map product items.
Proof.
  unfold applyUpdates. revert items.
  induction calls as [|c calls IH]; intros items; [reflexivity|].
  cbn [fold_left]. rewrite IH. unfold updateQuantity. rewrite map_map.
  apply map_ext. intros item. destruct (String.eqb _ _); reflexivity.
Qed.

(** The item [find] returns is the first that passes the test. *)
Lemma find_first {A} (f : A -> bool) (l : list A) (x : A) :
  List.find f l = Some x ->
  exists index,
    l !! index = Some x /\ f x = true /\
    forall j y, (j < index)%nat -> l !! j = Some y -> f y = false.
Proof.
  induction l as [|a l IH]; [discriminate|]. cbn [List.find].
  destruct (f a) eqn:Fa.
  - intros [= <-]. exists 0%nat. split; [reflexivity|]. split; [exact Fa|].
    intros j y Hj. lia.
  - intros H. destruct (IH H) as (index & Hl & Hx & Hfirst).
    exists (S index). split; [exact Hl|]. split; [exact Hx|].
    intros [|j] y Hj Hy.
    + cbn in Hy. congruence.
    + apply (Hfirst j y); [lia|exact Hy].
Qed.

(** X14.  [handleRestock] sends nothing and keeps the list when no item
    is of the product.  Otherwise it asks for the stock of the first such
    item of the list, the one at the least position, plus its quantity;
    when the update is accepted every item of the product leaves the list
    and the others stay in their order, and when it is refused the list is
    kept. *)
Theorem handleRestock_outcome
    (productId : string) (accepted : bool) (items : list RestockItem) :
  let sent := fst (handleRestock productId accepted items) in
  let items' := snd (handleRestock productId accepted items) in
  (sent = None <-> forall item, In item items -> id (product item) <> productId) /\
  (sent = None -> items' = items) /\
  (forall u, sent = Some u ->
     u_id u = productId /\
     (exists index item,
        items !! index = Some item /\ id (product item) = productId /\
        (forall j other, (j < index)%nat -> items !! j = Some other ->
                         id (product other) <> productId) /\
        u_current_stock u = current_stock (product item) + actualQuantity item) /\
     (accepted = false -> items' = items) /\
     (accepted = true ->
      sublist items' items /\
      forall item, In item items' <->
                   In item items /\ id (product item) <> productId)).
Proof.
  cbv zeta. unfold handleRestock.
  destruct (List.find (fun i => String.eqb (id (product i)) productId) items)
    as [item|] eqn:F; cbn [fst snd].
  - destruct (find_first _ _ _ F) as (index & Hl & Hid%String.eqb_eq & Hfirst).
    pose proof (List.find_some _ _ F) as [Hin _].
    split; [|split].
    + split; [discriminate|]. intros H. destruct (H item Hin Hid).
    + discriminate.
    + intros u [= <-]. cbn [u_id u_current_stock].
      split; [reflexivity|]. split.
      { exists index, item. split; [exact Hl|]. split; [exact Hid|].
        split; [|reflexivity]. intros j other Hj Hother Hsame.
        pose proof (Hfirst j other Hj Hother) as Hf. cbv beta in Hf.
        rewrite Hsame, String.eqb_refl in Hf. discriminate. }
      split.
      * intros ->. reflexivity.
      * intros ->. split; [apply filter_sublist_of|].
        intros it. rewrite List.filter_In, negb_true_iff, String.eqb_neq.
        reflexivity.
  - split; [|split].
    + split; [|reflexivity]. intros _ item Hin Hid.
      pose proof (List.find_none _ _ F item Hin) as H. cbv beta in H.
      rewrite Hid, String.eqb_refl in H. discriminate.
    + reflexivity.
    + discriminate.
Qed.

(** X15.  Whatever [updateQuantity] calls were made on the items
    [fetchRestockData] built, the stock [handleRestock] asks for is never
    below the stock the product has. *)
Theorem handleRestock_never_lowers_stock
    (rows : list Product) (calls : list (string * Z))
    (productId : string) (accepted : bool) :
  forall u,
    fst (handleRestock productId accepted
           (applyUpdates calls (fetchRestockData rows))) = Some u ->
    exists p, In p rows /\ id p = productId /\
              current_stock p <= u_current_stock u.
Proof.
  intros u. unfold handleRestock.
  set (items := applyUpdates calls (fetchRestockData rows)).
  destruct (List.find (fun i => String.eqb (id (product i)) productId) items)
    as [item|] eqn:F; cbn [fst]; [|discriminate].
  intros [= <-]. cbn [u_current_stock].
  apply List.find_some in F. destruct F as [Hin Hid%String.eqb_eq].
  exists (product item). split; [|split; [exact Hid|]].
  - assert (Hp : In (product item) (map product items)) by (apply in_map, Hin).
    unfold items in Hp. rewrite applyUpdates_products in Hp.
    unfold fetchRestockData in Hp. rewrite map_map in Hp.
    cbn [product restockItem] in Hp. rewrite map_id in Hp. exact Hp.
  - assert (Hall : Forall (fun item => 0 <= actualQuantity item) items).
    { apply applyUpdates_non_negative.
      eapply Forall_impl; [apply fetchRestockData_positive|].
      cbv beta. intros. lia. }
    rewrite Forall_forall in Hall.
    specialize (Hall item (proj2 (list_elem_of_In _ _) Hin)). lia.
Qed.

Lemma handleRestock_never_lowers_stock_witness :
  exists p, In p [stocked "2" "Tools" 5 15 40 8%float] /\ id p = "2" /\
            current_stock p <= 5.
Proof.
  apply (handleRestock_never_lowers_stock
           [stocked "2" "Tools" 5 15 40 8%float] [("2", -3)] "2" true
           {| u_id := "2"; u_current_stock := 5 |}).
  reflexivity.
Defined.

Lemma getUrgencyLevel_high_test (p : Product) :
  Qle_bool (inject_Z (current_stock p)) (inject_Z (min_stock_level p) * (5 # 10))
  = (2 * current_stock p <=? min_stock_level p).
Proof.
  unfold Qle_bool. cbn [Qnum Qden Qmult inject_Z].
  destruct (Z.leb_spec (2 * current_stock p) (min_stock_level p));
    [apply Z.leb_le|apply Z.leb_gt]; lia.
Qed.

(** X16.  For every product, whatever its stock: the urgency is critical
    exactly when the product is shown as out of stock, high exactly when
    its stock is not zero and at most half the minimum level, and medium
    exactly when its stock is not zero and above half the minimum level.
    Among products of non-negative stock with the same minimum level, one
    with less stock is never less urgent. *)
Theorem urgency_rises_as_stock_falls (p q : Product) :
  (getUrgencyLevel p = critical <-> getStockStatus p = Out) /\
  (getUrgencyLevel p = high
   <-> current_stock p <> 0 /\ 2 * current_stock p <= min_stock_level p) /\
  (getUrgencyLevel p = medium
   <-> current_stock p <> 0 /\ min_stock_level p < 2 * current_stock p) /\
  (min_stock_level p = min_stock_level q ->
   0 <= current_stock p <= current_stock q ->
   urgencyRank (getUrgencyLevel q) <= urgencyRank (getUrgencyLevel p)).
Proof.
  unfold getUrgencyLevel.
  rewrite !getUrgencyLevel_high_test, getStockStatus_Out.
  split; [|split; [|split]].
  - destruct (Z.eqb_spec (current_stock p) 0),
             (Z.leb_spec (2 * current_stock p) (min_stock_level p));
      split; intros; try discriminate; try lia; reflexivity.
  - destruct (Z.eqb_spec (current_stock p) 0),
             (Z.leb_spec (2 * current_stock p) (min_stock_level p));
      split; intros; try discriminate; try lia; reflexivity.
  - destruct (Z.eqb_spec (current_stock p) 0),
             (Z.leb_spec (2 * current_stock p) (min_stock_level p));
      split; intros; try discriminate; try lia; reflexivity.
  - intros Hmin Hstock. rewrite Hmin.
    destruct (Z.eqb_spec (current_stock p) 0) as [Hp|Hp],
             (Z.eqb_spec (current_stock q) 0) as [Hq|Hq],
             (Z.leb_spec (2 * current_stock p) (min_stock_level q)),
             (Z.leb_spec (2 * current_stock q) (min_stock_level q));
      cbn [urgencyRank]; lia.
Qed.

Lemma urgency_rises_as_stock_falls_witness :
  (getUrgencyLevel (stocked "4" "Plumbing" (-1) 10 30 15%float) = high
   <-> -1 <> 0 /\ 2 * -1 <= 10) /\
  urgencyRank (getUrgencyLevel (stocked "4" "Plumbing" 8 10 30 15%float))
  <= urgencyRank (getUrgencyLevel (stocked "4" "Plumbing" 5 10 30 15%float)).
Proof.
  split.
  - exact (proj1 (proj2 (urgency_rises_as_stock_falls
                           (stocked "4" "Plumbing" (-1) 10 30 15%float)
                           (stocked "4" "Plumbing" (-1) 10 30 15%float)))).
  - apply (urgency_rises_as_stock_falls
             (stocked "4" "Plumbing" 5 10 30 15%float)
             (stocked "4" "Plumbing" 8 10 30 15%float)); simpl; try reflexivity; lia.
Defined.

(** With a negative stock the order fails: stock -1 is of high urgency at
    most, stock 0 is critical. *)
Example urgency_negative_stock :
  getUrgencyLevel (stocked "4" "Plumbing" (-1) 10 30 15%float) = high /\
  getUrgencyLevel (stocked "4" "Plumbing" 0 10 30 15%float) = critical.
Proof. split; reflexivity. Qed.

End Restocking.

(** * The report and the dashboard, continued *)

Section ReportShares.

Import Reports.

Lemma inject_Z_of_nat_nonzero (n : nat) :
  (0 < n)%nat -> ~ (inject_Z (Z.of_nat n) == 0)%Q.
Proof.
  intros Hpos H. apply (Qeq_bool_neq (inject_Z (Z.of_nat n)) 0); [|exact H].
  unfold Qeq_bool. simpl. apply Z.eqb_neq. lia.
Qed.

Lemma shares_total (total : nat) (rows : list CategoryRow) :
  (0 < total)%nat ->
  (fold_right (fun row acc =>
                 inject_Z (r_count row) / inject_Z (Z.of_nat total) * 100 + acc)
              0 rows
   == inject_Z (sumCounts rows) / inject_Z (Z.of_nat total) * 100)%Q.
Proof.
  intros Hpos. pose proof (inject_Z_of_nat_nonzero total Hpos) as Hnz.
  induction rows as [|row rows IH]; cbn [fold_right sumCounts].
  - field. exact Hnz.
  - rewrite IH. fold (sumCounts rows). rewrite inject_Z_plus. field. exact Hnz.
Qed.

(** X17.  In the overview of a catalog that is not empty, the shares
    shown beside the categories add up to 100, whatever the stock fields
    are. *)
Theorem category_shares_total (products : list Product) :
  products <> [] ->
  let report := fetchReportData products in
  (fold_right (fun row acc => categoryShare report row + acc) 0
              (rd_categoryBreakdown report)
   == 100)%Q.
Proof.
  intros Hne. cbv zeta. unfold categoryShare.
  cbn [rd_totalProducts rd_categoryBreakdown fetchReportData].
  assert (Hpos : (0 < length products)%nat)
    by (destruct products; [contradiction|simpl; lia]).
  destruct (Nat.ltb_spec 0 (length products)) as [_|]; [|lia].
  rewrite (shares_total _ _ Hpos).
  unfold categoryBreakdown.
  rewrite (sumCounts_Permutation _ _ (arraySort_Permutation byCountDesc _)).
  rewrite sumCounts_categoryRows. field.
  apply inject_Z_of_nat_nonzero, Hpos.
Qed.

Lemma category_shares_total_witness :
  let report := fetchReportData scenarioCatalog in
  (fold_right (fun row acc => categoryShare report row + acc) 0
              (rd_categoryBreakdown report)
   == 100)%Q.
Proof.
  apply (category_shares_total scenarioCatalog). discriminate.
Defined.

Lemma totalValue_snoc (products : list Product) (p : Product) :
  totalValue (products ++ [p]) = (totalValue products + lineValue p)%float.
Proof. unfold totalValue. rewrite fold_left_app. reflexivity. Qed.

Lemma filter_category_snoc (c : string) (products : list Product) (p : Product) :
  List.filter (fun q => String.eqb (category q) c) (products ++ [p])
  = List.filter (fun q => String.eqb (category q) c) products
    ++ (if String.eqb (category p) c then [p] else []).
Proof.
  rewrite List.filter_app. cbn [List.filter].
  destruct (String.eqb (category p) c); reflexivity.
Qed.

Lemma countIn_zero (c : string) (products : list Product) :
  countIn c products = 0 ->
  List.filter (fun q => String.eqb (category q) c) products = [].
Proof.
  unfold countIn. destruct (List.filter _ products); [reflexivity|].
  simpl. lia.
Qed.

Lemma categoryMap_values (products : list Product) :
  Forall (fun e =>
            d_value (snd e)
            = totalValue (List.filter (fun q => String.eqb (category q) (fst e))
                                      products))
         (categoryMap products).
Proof.
  induction products as [|p products IH] using rev_ind; [constructor|].
  rewrite categoryMap_snoc.
  destruct (categoryMap_grouped products) as (Hnd & _ & Hout).
  unfold addProduct. set (k := category p).
  eapply map_set_Forall; [exact Hnd|exact IH| |].
  - intros e He Hne. cbv beta. rewrite filter_category_snoc. fold k.
    destruct (String.eqb_spec k (fst e)) as [E|_];
      [symmetry in E; contradiction|].
    rewrite app_nil_r. exact He.
  - cbn [fst snd d_value]. rewrite filter_category_snoc. fold k.
    rewrite String.eqb_refl, totalValue_snoc. f_equal.
    destruct (map_get k (categoryMap products)) as [d|] eqn:G.
    + apply map_get_Some in G. rewrite Forall_forall in IH.
      apply (IH (k, d)), list_elem_of_In, G.
    + cbn [d_value]. rewrite countIn_zero; [reflexivity|].
      apply Hout, map_get_None, G.
Qed.

(** X18.  The value of a category row is the valuation of the products of
    that category alone: the same binary64 sum, taken over them in the order
    of the snapshot. *)
Theorem category_value_is_category_valuation (products : list Product) :
  Forall (fun row =>
            r_value row
            = totalValue (List.filter
                            (fun q => String.eqb (category q) (r_category row))
                            products))
         (categoryBreakdown products).
Proof.
  unfold categoryBreakdown.
  rewrite (arraySort_Permutation byCountDesc (categoryRows products)).
  unfold categoryRows. apply Forall_map.
  eapply Forall_impl; [apply categoryMap_values|].
  intros e He. exact He.
Qed.

End ReportShares.

Section DashboardCounts.

Import Dashboard.

Lemma low_out_at_most_all (products : list Product) :
  (length (List.filter isLowStock products)
   + length (List.filter isOutOfStock products)
   <= length products)%nat.
Proof.
  induction products as [|p l IH]; [simpl; lia|].
  rewrite !filter_length_cons. simpl length.
  pose proof (isLowStock_spec p) as Hl.
  pose proof (isOutOfStock_spec p) as Ho.
  destruct (isLowStock p), (isOutOfStock p); lia.
Qed.

(** X19.  On every dashboard the low-stock and out-of-stock counts
    together do not exceed the number of products; the alert panel is shown
    exactly when the low-stock count is not 0, and it lists that many
    products or 5, whichever is less. *)
Theorem dashboard_counts_consistent (products : list Product) :
  let s := stats products in
  (ds_lowStockItems s + ds_outOfStockItems s <= ds_totalProducts s)%nat /\
  length (lowStockProducts products) = Nat.min 5 (ds_lowStockItems s) /\
  (alertShown products = true <-> (0 < ds_lowStockItems s)%nat).
Proof.
  cbv zeta. unfold stats, alertShown, lowStockProducts.
  cbn [ds_lowStockItems ds_outOfStockItems ds_totalProducts].
  split; [apply low_out_at_most_all|]. split; [apply length_take|].
  rewrite Nat.ltb_lt, length_take. lia.
Qed.

End DashboardCounts.
